(** * Obsidian MCP boilerplate server: the tools, over a model of the file
      system and of the clock.

    The repository registers seven read-only tools with a FastMCP
    dispatcher ([tools/time.py], [tools/navigation.py], [tools/custom.py]).
    Every tool body is

      try: ... except Exception as e: raise ToolError(f"<prefix>: {str(e)}")

    around calls into [pathlib] / [anyio.Path], [os.walk], [os.path.relpath],
    [datetime] and [time].  The tools are embedded here as functions from an
    explicit environment (configuration, directory tree, clock) to a
    [result]; the library calls they make are modelled next to them, each
    with the behaviour that the Python documentation gives it. *)

From Stdlib Require Import ZArith List String Ascii Bool Lia Finite.
Import ListNotations.

Local Open Scope string_scope.
Local Open Scope Z_scope.
Local Open Scope list_scope.

(** [s1 +++ s2] is Python's string concatenation (and the pieces of an
    f-string). *)
Local Infix "+++" := String.append (right associativity, at level 60).

(* ------------------------------------------------------------------ *)
(** ** Exceptions and results *)

(** The exceptions that the modelled calls can raise.  All of them derive
    from [Exception]; [ToolError] is [fastmcp.exceptions.ToolError], the
    others are built-in. *)
Inductive exn : Type :=
| ToolError (msg : string)
| FileNotFoundError (filename : string)
| NotADirectoryError (filename : string)
| IsADirectoryError (filename : string)
| PermissionError (filename : string)
| UnicodeDecodeError (reason : string)
| ValueError (msg : string)
| IndexError (msg : string)
| TypeError (msg : string).

(** [str(e)].  An [OSError] prints as [[Errno n] strerror: 'filename']. *)
Definition str_exn (e : exn) : string :=
  match e with
  | ToolError msg => msg
  | FileNotFoundError f => "[Errno 2] No such file or directory: '" +++ f +++ "'"
  | NotADirectoryError f => "[Errno 20] Not a directory: '" +++ f +++ "'"
  | IsADirectoryError f => "[Errno 21] Is a directory: '" +++ f +++ "'"
  | PermissionError f => "[Errno 13] Permission denied: '" +++ f +++ "'"
  | UnicodeDecodeError reason => "'utf-8' codec can't decode " +++ reason
  | ValueError msg => msg
  | IndexError msg => msg
  | TypeError msg => msg
  end.

(** A computation either returns a value or raises. *)
Inductive result (A : Type) : Type :=
| Return (a : A)
| Raise (e : exn).
Arguments Return {A} a.
Arguments Raise {A} e.

Definition bind {A B : Type} (c : result A) (k : A -> result B) : result B :=
  match c with
  | Return a => k a
  | Raise e => Raise e
  end.

Notation "x <- c ;; k" := (bind c (fun x => k))
  (at level 61, c at next level, right associativity).

(** [try: body except Exception as e: handler(e)]. *)
Definition try_except {A : Type} (body : result A) (handler : exn -> result A)
  : result A :=
  match body with
  | Return a => Return a
  | Raise e => handler e
  end.

(** The handler that closes every tool:
    [except Exception as e: raise ToolError(f"<prefix>: {str(e)}")]. *)
Definition reraise_as_ToolError {A : Type} (prefix : string) (e : exn) : result A :=
  Raise (ToolError (prefix +++ ": " +++ str_exn e)).

(** The loop [for x in xs: acc = body(acc, x)], stopping at the first
    exception. *)
Fixpoint for_each {A B : Type} (xs : list A) (acc : B)
         (body : B -> A -> result B) : result B :=
  match xs with
  | [] => Return acc
  | x :: xs' => acc' <- body acc x ;; for_each xs' acc' body
  end.

(* ------------------------------------------------------------------ *)
(** ** Strings *)

Definition lower_ascii (c : ascii) : ascii :=
  let n := nat_of_ascii c in
  if (Nat.leb 65 n && Nat.leb n 90)%bool then ascii_of_nat (n + 32) else c.

(** [s.lower()], on the ASCII letters. *)
Fixpoint lower (s : string) : string :=
  match s with
  | EmptyString => EmptyString
  | String c s' => String (lower_ascii c) (lower s')
  end.

(** [s.rfind(".")]: the index of the last dot, [None] for Python's [-1]. *)
Fixpoint rfind_dot (s : string) : option nat :=
  match s with
  | EmptyString => None
  | String c s' =>
      match rfind_dot s' with
      | Some i => Some (S i)
      | None => if Ascii.eqb c "." then Some O else None
      end
  end.

(** [s[i:]]. *)
Fixpoint drop (i : nat) (s : string) : string :=
  match i, s with
  | O, _ => s
  | S _, EmptyString => EmptyString
  | S i', String _ s' => drop i' s'
  end.

(** [s.split("/")]. *)
Fixpoint split_slash (s : string) : list string :=
  match s with
  | EmptyString => [EmptyString]
  | String c s' =>
      if Ascii.eqb c "/" then EmptyString :: split_slash s'
      else match split_slash s' with
           | [] => [String c EmptyString]
           | w :: ws => String c w :: ws
           end
  end.

(** ["/".join(parts)]. *)
Fixpoint join_slash (parts : list string) : string :=
  match parts with
  | [] => EmptyString
  | [p] => p
  | p :: ps => p +++ "/" +++ join_slash ps
  end.

(** [c in s] for a character. *)
Fixpoint contains_char (c : ascii) (s : string) : bool :=
  match s with
  | EmptyString => false
  | String a s' => Ascii.eqb a c || contains_char c s'
  end.

(* ------------------------------------------------------------------ *)
(** ** Paths ([pathlib.PurePosixPath]) *)

(** An absolute POSIX path: its anchor (["/"], or ["//"] which [pathlib]
    keeps apart) and its parts.  Parts are never empty and never ["."]:
    [pathlib] drops both when it parses; [".."] is kept. *)
Record path : Type := mkpath { anchor : string; parts : list string }.

Definition parse_parts (s : string) : list string :=
  filter (fun p => negb (String.eqb p "" || String.eqb p ".")) (split_slash s).

(** The root of a string that starts with a slash: exactly two leading
    slashes give ["//"], one or three and more give ["/"]. *)
Definition parse_root (s : string) : string :=
  match s with
  | String "/" (String "/" (String "/" _)) => "/"
  | String "/" (String "/" _) => "//"
  | _ => "/"
  end.

(** [p / s] for a string [s]: an absolute [s] replaces [p], a relative one
    is appended part by part. *)
Definition joinpath (p : path) (s : string) : path :=
  match s with
  | String "/" _ => mkpath (parse_root s) (parse_parts s)
  | _ => mkpath (anchor p) (parts p ++ parse_parts s)
  end.

Infix "//" := joinpath (at level 40, left associativity).

(** [str(p)]. *)
Definition str (p : path) : string := anchor p +++ join_slash (parts p).

(** [p.name]. *)
Definition name (p : path) : string := last (parts p) "".

(** [p.suffix]:
    [i = name.rfind('.'); name[i:] if 0 < i < len(name) - 1 else '']. *)
Definition suffix (p : path) : string :=
  let nm := name p in
  match rfind_dot nm with
  | Some i =>
      if (Nat.ltb 0 i && Nat.ltb i (String.length nm - 1))%bool
      then drop i nm else ""
  | None => ""
  end.

(** [os.path.normpath] on the parts: [".."] removes the part before it, and
    stays at the root when there is none. *)
Definition normpath_step (acc : list string) (c : string) : list string :=
  if String.eqb c ".." then tl acc else c :: acc.

Definition normpath (ps : list string) : list string :=
  rev (fold_left normpath_step ps []).

(** The length of the common prefix of two part lists
    ([len(os.path.commonprefix([start_list, path_list]))]). *)
Fixpoint common_prefix_length (l1 l2 : list string) : nat :=
  match l1, l2 with
  | a :: l1', b :: l2' =>
      if String.eqb a b then S (common_prefix_length l1' l2') else O
  | _, _ => O
  end.

(** [os.path.relpath(path, start)] for absolute arguments. *)
Definition relpath (p start : path) : string :=
  let start_list := normpath (parts start) in
  let path_list := normpath (parts p) in
  let i := common_prefix_length start_list path_list in
  let rel_list := repeat ".." (List.length start_list - i) ++ skipn i path_list in
  match rel_list with
  | [] => "."
  | _ => join_slash rel_list
  end.

(* ------------------------------------------------------------------ *)
(** ** The directory tree *)

(** What [os.stat] reports and the tools use.  [st_mtime] is a float
    number of seconds; [datetime.fromtimestamp] rounds it to microseconds,
    and the model keeps that count of microseconds since the epoch. *)
Record stat_result : Type := mkstat { st_size : Z; st_mtime : Z }.

(** What [read_text(encoding="utf-8")] finds in a regular file: text, bytes
    that are not UTF-8, or a file the process may not open. *)
Inductive file_data : Type :=
| Text (s : string)
| Undecodable (reason : string)
| Unreadable.

(** A node is a regular file or a directory.  A directory lists its entries
    in the order in which the operating system enumerates them;
    [listable = false] is a directory whose listing is refused
    (permission denied). *)
Unset Elimination Schemes.
Inductive node : Type :=
| File (st : stat_result) (data : file_data)
| Dir (st : stat_result) (listable : bool) (entries : list (string * node)).
Set Elimination Schemes.

Definition is_file_node (n : node) : bool :=
  match n with File _ _ => true | Dir _ _ _ => false end.

Definition is_dir_node (n : node) : bool :=
  match n with File _ _ => false | Dir _ _ _ => true end.

Definition node_stat (n : node) : stat_result :=
  match n with File st _ => st | Dir st _ _ => st end.

Fixpoint lookup (nm : string) (es : list (string * node)) : option node :=
  match es with
  | [] => None
  | (k, n) :: es' => if String.eqb k nm then Some n else lookup nm es'
  end.

(** One step of path resolution.  The state is the current node and the
    directories above it, nearest first; [".."] goes up and stays at the
    root of the file system. *)
Definition resolve_step (st : option (list node * node)) (c : string)
  : option (list node * node) :=
  match st with
  | None => None
  | Some (above, cur) =>
      match cur with
      | File _ _ => None
      | Dir _ _ es =>
          if String.eqb c ".." then
            match above with
            | [] => Some ([], cur)
            | parent :: above' => Some (above', parent)
            end
          else
            match lookup c es with
            | Some n => Some (cur :: above, n)
            | None => None
            end
      end
  end.

(** The node that a path names in the tree [fs] (the root directory), if
    any. *)
Definition resolve (fs : node) (p : path) : option node :=
  option_map snd (fold_left resolve_step (parts p) (Some ([], fs))).

(** [Path.exists()]. *)
Definition exists_ (fs : node) (p : path) : bool :=
  match resolve fs p with Some _ => true | None => false end.

(** [Path.is_file()]. *)
Definition is_file (fs : node) (p : path) : bool :=
  match resolve fs p with Some n => is_file_node n | None => false end.

(** [Path.stat()]. *)
Definition stat (fs : node) (p : path) : result stat_result :=
  match resolve fs p with
  | Some n => Return (node_stat n)
  | None => Raise (FileNotFoundError (str p))
  end.

(** [Path.read_text(encoding="utf-8")]. *)
Definition read_text (fs : node) (p : path) : result string :=
  match resolve fs p with
  | Some (File _ (Text s)) => Return s
  | Some (File _ (Undecodable reason)) => Raise (UnicodeDecodeError reason)
  | Some (File _ Unreadable) => Raise (PermissionError (str p))
  | Some (Dir _ _ _) => Raise (IsADirectoryError (str p))
  | None => Raise (FileNotFoundError (str p))
  end.

(** A child path [p / nm] for a directory entry [nm]. *)
Definition child (p : path) (nm : string) : path :=
  mkpath (anchor p) (parts p ++ [nm]).

(** What the call of an [async def] method of [anyio.Path] gives.  A method
    whose body returns is a coroutine function: its call gives a coroutine,
    which [await] runs.  A method whose body has a [yield] is an async
    generator function: its call gives an async generator and runs none of
    the body; an async generator is consumed by [async for], and is not
    awaitable. *)
Inductive async_call (A : Type) : Type :=
| coroutine (outcome : result A)
| async_generator.
Arguments coroutine {A} outcome.
Arguments async_generator {A}.

(** [await c]. *)
Definition await {A : Type} (c : async_call A) : result A :=
  match c with
  | coroutine outcome => outcome
  | async_generator =>
      Raise (TypeError
               "object async_generator can't be used in 'await' expression")
  end.

(** [anyio.Path.iterdir()]:

      async def iterdir(self) -> AsyncIterator[Path]: ... yield path

    an async generator function.  The call reads nothing from the file
    system.  ([exists_], [is_file], [stat] and [read_text] above are
    coroutine functions of [anyio.Path]; each stands for the outcome of its
    awaited call.) *)
Definition iterdir (fs : node) (p : path) : async_call (list path) :=
  async_generator.

(** [os.scandir(top)] on the node that [top] names. *)
Definition scandir (top : path) (n : node) : result (list (string * node)) :=
  match n with
  | Dir _ true es => Return es
  | Dir _ false _ => Raise (PermissionError (str top))
  | File _ _ => Raise (NotADirectoryError (str top))
  end.

Definition dirnames (es : list (string * node)) : list string :=
  map fst (filter (fun e => is_dir_node (snd e)) es).

Definition filenames (es : list (string * node)) : list string :=
  map fst (filter (fun e => is_file_node (snd e)) es).

(** [os.walk(top)] with its defaults ([topdown=True], [onerror=None]),
    started on the node that [top] names.  The walk lists [top], yields
    [(top, dirs, files)] and then walks every name in [dirs].  With
    [onerror=None] an error of [os.scandir] is ignored: the directory
    yields nothing and is not entered. *)
Fixpoint os_walk_node (top : path) (n : node)
  : list (path * list string * list string) :=
  match n with
  | File _ _ => []
  | Dir _ false _ => []
  | Dir _ true es =>
      (top, dirnames es, filenames es) ::
      (fix walk_dirs (l : list (string * node)) :=
         match l with
         | [] => []
         | (nm, File _ _) :: l' => walk_dirs l'
         | (nm, (Dir _ _ _) as d) :: l' =>
             os_walk_node (child top nm) d ++ walk_dirs l'
         end) es
  end.

(** [os.walk(top)]: a [top] that names nothing yields nothing. *)
Definition os_walk (fs : node) (top : path)
  : list (path * list string * list string) :=
  match resolve fs top with
  | Some n => os_walk_node top n
  | None => []
  end.

(* ------------------------------------------------------------------ *)
(** ** Dates and the clock *)

(** A naive [datetime]; its fields are within the ranges that the
    [datetime] constructor enforces (see [valid_datetime] below). *)
Record datetime : Type := mkdatetime {
  year : Z; month : Z; day : Z;
  hour : Z; minute : Z; second : Z; microsecond : Z }.

Definition digit (d : Z) : ascii := ascii_of_nat (48 + Z.to_nat d).

(** The last [width] decimal digits of [n], in front of [acc]: the
    zero-padded rendering of a field that fits in [width] digits. *)
Fixpoint zero_padded (width : nat) (n : Z) (acc : string) : string :=
  match width with
  | O => acc
  | S w => zero_padded w (n / 10) (String (digit (n mod 10)) acc)
  end.

(** [dt.strftime("%Y-%m-%d %H:%M:%S")]. *)
Definition strftime (dt : datetime) : string :=
  zero_padded 4 (year dt)
    (String "-" (zero_padded 2 (month dt)
    (String "-" (zero_padded 2 (day dt)
    (String " " (zero_padded 2 (hour dt)
    (String ":" (zero_padded 2 (minute dt)
    (String ":" (zero_padded 2 (second dt) "")))))))))).

(** What the [time] and [datetime] modules report at the instant of a call:
    [datetime.now()], the constants [time.tzname] and [time.daylight]
    ("nonzero if a DST timezone is defined"), and
    [time.localtime().tm_isdst], which tells whether daylight-saving time
    is in effect at that instant. *)
Record clock : Type := mkclock {
  datetime_now : datetime;
  time_tzname : string * string;
  time_daylight : Z;
  localtime_tm_isdst : Z }.

(** [t[i]] on a pair. *)
Definition tuple2_getitem (t : string * string) (i : Z) : result string :=
  if (i =? 0) || (i =? -2) then Return (fst t)
  else if (i =? 1) || (i =? -1) then Return (snd t)
  else Raise (IndexError "tuple index out of range").

(* ------------------------------------------------------------------ *)
(** ** Configuration ([config.py]) *)

Record config : Type := mkconfig {
  VAULT_PATH : path;
  TARGET_FOLDER : string }.

Definition TARGET_FOLDER_PATH (cfg : config) : path :=
  VAULT_PATH cfg // TARGET_FOLDER cfg.

Definition VAULT_CLAUDE_MD (cfg : config) : path :=
  VAULT_PATH cfg // "CLAUDE.md".

Definition TARGET_CLAUDE_MD (cfg : config) : path :=
  TARGET_FOLDER_PATH cfg // "CLAUDE.md".

(** The values that [config.py] ships with. *)
Definition shipped_config : config :=
  mkconfig
    (mkpath "/" ["Users"; "chaosisnotrandomitisrythmic"; "Documents";
                 "obsedian"; "chaos_isrhythmic"])
    "Scanner Daybook".

(* ------------------------------------------------------------------ *)
(** ** The clock tool ([tools/time.py]) *)

Record time_reading : Type := mk_time_reading {
  tr_time : string;
  tr_timezone : string }.

Definition get_current_time (clk : clock) : result time_reading :=
  try_except
    (let now := datetime_now clk in
     timezone_name <- tuple2_getitem (time_tzname clk) (time_daylight clk) ;;
     Return (mk_time_reading (strftime now) timezone_name))
    (reraise_as_ToolError "Failed to get current time").

(* ------------------------------------------------------------------ *)
(** ** The navigation tools ([tools/navigation.py]) *)

Record navigation_result : Type := mk_navigation_result {
  nr_path : string;
  nr_content : string;
  nr_loaded : bool;
  nr_message : string }.

Definition load_navigation_context (cfg : config) (fs : node)
  : result navigation_result :=
  try_except
    (if negb (exists_ fs (VAULT_CLAUDE_MD cfg)) then
       Raise (ToolError ("Navigation file not found at " +++ str (VAULT_CLAUDE_MD cfg)))
     else
       content <- read_text fs (VAULT_CLAUDE_MD cfg) ;;
       Return (mk_navigation_result
                 (str (VAULT_CLAUDE_MD cfg)) content true
                 "Top-level navigation context loaded successfully"))
    (reraise_as_ToolError "Failed to load navigation context").

Definition load_target_folder_context (cfg : config) (fs : node)
  : result navigation_result :=
  try_except
    (if negb (exists_ fs (TARGET_CLAUDE_MD cfg)) then
       Return (mk_navigation_result
                 (str (TARGET_CLAUDE_MD cfg)) "" false
                 ("No CLAUDE.md found in target folder: "
                    +++ str (TARGET_FOLDER_PATH cfg)))
     else
       content <- read_text fs (TARGET_CLAUDE_MD cfg) ;;
       Return (mk_navigation_result
                 (str (TARGET_CLAUDE_MD cfg)) content true
                 "Target folder navigation loaded successfully"))
    (reraise_as_ToolError "Failed to load target folder context").

Definition discover_subdirectory_navigation (cfg : config) (fs : node)
           (subdirectory : string) : result navigation_result :=
  try_except
    (let subdir_path := VAULT_PATH cfg // subdirectory in
     let claude_md_path := subdir_path // "CLAUDE.md" in
     if negb (exists_ fs subdir_path) then
       Raise (ToolError ("Subdirectory not found: " +++ str subdir_path))
     else if negb (exists_ fs claude_md_path) then
       Return (mk_navigation_result
                 (str claude_md_path) "" false
                 ("No CLAUDE.md found in " +++ subdirectory))
     else
       content <- read_text fs claude_md_path ;;
       Return (mk_navigation_result
                 (str claude_md_path) content true
                 ("Subdirectory navigation for " +++ subdirectory
                    +++ " loaded successfully")))
    (reraise_as_ToolError "Failed to discover subdirectory navigation").

Record navigation_listing : Type := mk_navigation_listing {
  nl_available_navigation : list string;
  nl_total_count : nat;
  nl_vault_path : string;
  nl_target_folder : string }.

(** [x in l] for a list of strings. *)
Definition contains (x : string) (l : list string) : bool :=
  existsb (String.eqb x) l.

Definition _walk_directory (cfg : config) (fs : node) : result (list string) :=
  for_each (os_walk fs (VAULT_PATH cfg)) []
    (fun files_list item =>
       let '(root, _, files) := item in
       if contains "CLAUDE.md" files then
         let rel_path := relpath root (VAULT_PATH cfg) in
         if String.eqb rel_path "." then Return (files_list ++ ["/ (root)"])
         else Return (files_list ++ [rel_path])
       else Return files_list).

Definition list_navigation_files (cfg : config) (fs : node)
  : result navigation_listing :=
  try_except
    (navigation_files <- _walk_directory cfg fs ;;
     Return (mk_navigation_listing
               navigation_files
               (List.length navigation_files)
               (str (VAULT_PATH cfg))
               (str (TARGET_FOLDER_PATH cfg))))
    (reraise_as_ToolError "Failed to list navigation files").

(* ------------------------------------------------------------------ *)
(** ** The folder tools ([tools/custom.py]) *)

(** One element of the ["files"] list. *)
Record file_entry : Type := mk_file_entry {
  fe_name : string;
  fe_path : string;
  fe_size : Z;
  fe_modified : string;
  fe_extension : string }.

Record file_listing : Type := mk_file_listing {
  fl_target_folder : string;
  fl_folder_path : string;
  fl_files : list file_entry;
  fl_total_count : nat;
  fl_filter : string }.

Record file_content : Type := mk_file_content {
  fc_filename : string;
  fc_path : string;
  fc_content : string;
  fc_size : Z;
  fc_modified : string;
  fc_target_folder : string;
  fc_loaded : bool }.

(** [sorted(l, key=key, reverse=True)]: descending by key, and stable
    (elements with equal keys keep the order they had in [l]). *)
Fixpoint insert_reverse {A : Type} (key : A -> string) (x : A) (l : list A)
  : list A :=
  match l with
  | [] => [x]
  | y :: l' =>
      if String.ltb (key x) (key y) then y :: insert_reverse key x l'
      else x :: y :: l'
  end.

Definition sorted_reverse {A : Type} (key : A -> string) (l : list A) : list A :=
  fold_right (insert_reverse key) [] l.

(** [not s] / [s or default] for a string. *)
Definition is_empty (s : string) : bool :=
  match s with EmptyString => true | String _ _ => false end.

Section FolderTools.

(** [datetime.fromtimestamp], from microseconds since the epoch to local
    wall-clock time.  It depends on the time zone of the host, and raises
    when the result falls outside the years 1..9999. *)
Variable fromtimestamp : Z -> result datetime.

Definition _list_files (cfg : config) (fs : node) (file_extension : string)
  : result (list file_entry) :=
  items <- await (iterdir fs (TARGET_FOLDER_PATH cfg)) ;;
  folder_files <-
    for_each items []
      (fun folder_files item =>
         if is_file fs item then
           if is_empty file_extension
              || String.eqb (lower (suffix item)) ("." +++ lower file_extension)
           then
             stat_info <- stat fs item ;;
             modified <- fromtimestamp (st_mtime stat_info) ;;
             Return (folder_files ++
                       [mk_file_entry (name item) (str item)
                          (st_size stat_info) (strftime modified)
                          (suffix item)])
           else Return folder_files
         else Return folder_files) ;;
  Return (sorted_reverse fe_modified folder_files).

Definition list_target_folder_files (cfg : config) (fs : node)
           (file_extension : string) : result file_listing :=
  try_except
    (if negb (exists_ fs (TARGET_FOLDER_PATH cfg)) then
       Raise (ToolError ("Target folder not found: "
                           +++ str (TARGET_FOLDER_PATH cfg)))
     else
       files <- _list_files cfg fs file_extension ;;
       Return (mk_file_listing
                 (TARGET_FOLDER cfg)
                 (str (TARGET_FOLDER_PATH cfg))
                 files
                 (List.length files)
                 (if is_empty file_extension then "all files"
                  else file_extension)))
    (reraise_as_ToolError "Failed to list target folder files").

Definition load_target_folder_file (cfg : config) (fs : node)
           (filename : string) : result file_content :=
  try_except
    (let file_path := TARGET_FOLDER_PATH cfg // filename in
     if negb (exists_ fs file_path) then
       Raise (ToolError ("File not found: " +++ filename +++ " in "
                           +++ TARGET_FOLDER cfg))
     else
       content <- read_text fs file_path ;;
       stat_info <- stat fs file_path ;;
       modified <- fromtimestamp (st_mtime stat_info) ;;
       Return (mk_file_content
                 filename (str file_path) content
                 (st_size stat_info) (strftime modified)
                 (TARGET_FOLDER cfg) true))
    (reraise_as_ToolError ("Failed to load file " +++ filename)).

End FolderTools.

(* ------------------------------------------------------------------ *)
(** ** A host whose local time is UTC *)

(** [datetime._ord2ymd]: the date of a proleptic Gregorian ordinal
    (ordinal 1 is 0001-01-01). *)
Definition is_leap (y : Z) : bool :=
  (y mod 4 =? 0) && (negb (y mod 100 =? 0) || (y mod 400 =? 0)).

Definition days_in_month (y m : Z) : Z :=
  if m =? 2 then (if is_leap y then 29 else 28)
  else if (m =? 4) || (m =? 6) || (m =? 9) || (m =? 11) then 30 else 31.

Definition days_before_month (y m : Z) : Z :=
  nth (Z.to_nat m) [0; 0; 31; 59; 90; 120; 151; 181; 212; 243; 273; 304; 334] 0
  + (if (2 <? m) && is_leap y then 1 else 0).

Definition ord2ymd (ordinal : Z) : Z * Z * Z :=
  let n := ordinal - 1 in
  let n400 := n / 146097 in let n := n mod 146097 in
  let y := n400 * 400 + 1 in
  let n100 := n / 36524 in let n := n mod 36524 in
  let n4 := n / 1461 in let n := n mod 1461 in
  let n1 := n / 365 in let n := n mod 365 in
  let y := y + n100 * 100 + n4 * 4 + n1 in
  if (n1 =? 4) || (n100 =? 4) then (y - 1, 12, 31)
  else
    let m := Z.shiftr (n + 50) 5 in
    let preceding := days_before_month y m in
    if n <? preceding then
      let m := m - 1 in
      let preceding := preceding - (days_in_month y m) in
      (y, m, n - preceding + 1)
    else (y, m, n - preceding + 1).

(** [datetime.fromtimestamp] where local time is UTC. *)
Definition utc_fromtimestamp (t : Z) : result datetime :=
  let secs := t / 1000000 in
  let us := t mod 1000000 in
  let days := secs / 86400 in
  let rem := secs mod 86400 in
  let '(y, m, d) := ord2ymd (days + 719163) in
  if (1 <=? y) && (y <=? 9999) then
    Return (mkdatetime y m d (rem / 3600) (rem mod 3600 / 60) (rem mod 60) us)
  else Raise (ValueError "year is out of range").

(* ------------------------------------------------------------------ *)
(** ** Notions that the statements below use *)

(** Induction on a directory tree, with the hypothesis available for every
    entry of a directory. *)
Fixpoint node_ind (P : node -> Prop)
         (HFile : forall st data, P (File st data))
         (HDir : forall st listable es,
             Forall (fun e => P (snd e)) es -> P (Dir st listable es))
         (n : node) : P n :=
  match n with
  | File st data => HFile st data
  | Dir st listable es =>
      HDir st listable es
        ((fix entries_ok (l : list (string * node))
            : Forall (fun e => P (snd e)) l :=
            match l with
            | [] => Forall_nil _
            | e :: l' =>
                Forall_cons e (node_ind P HFile HDir (snd e)) (entries_ok l')
            end) es)
  end.

(** Whether daylight-saving time is in effect is [tm_isdst > 0]; in a zone
    whose daylight-saving time is its summer time (as Europe/Berlin; not
    Europe/Dublin, whose winter time counts as the saving one), the name of
    the zone at that instant is the matching element of [time.tzname]. *)
Definition tzname_in_effect (clk : clock) : string :=
  if 0 <? localtime_tm_isdst clk then snd (time_tzname clk)
  else fst (time_tzname clk).

(** A result that is a value, or a [ToolError] whose message is the prefix
    of the tool followed by a cause. *)
Definition returns_or_ToolError {A : Type} (prefix : string) (r : result A)
  : Prop :=
  match r with
  | Return _ => True
  | Raise (ToolError msg) => exists cause, msg = prefix +++ ": " +++ cause
  | Raise _ => False
  end.

(** A winter instant in a zone that has daylight-saving rules
    (Europe/Berlin, 15 January 2025, noon). *)
Definition berlin_winter_noon : clock :=
  mkclock (mkdatetime 2025 1 15 12 0 0 0) ("CET", "CEST") 1 0.

(** The vault of the scenario in the specification: [/v] with a marker,
    [/v/Folder] with a marker and two notes; next to it, a directory inside
    the target folder and a file outside the vault. *)
Definition yesterday_noon : Z := 1736856000000000.
Definition today_noon : Z := 1736942400000000.

Definition scenario_folder : node :=
  Dir (mkstat 4096 today_noon) true
    [("CLAUDE.md", File (mkstat 6 0) (Text "folder"));
     ("a.md", File (mkstat 3 yesterday_noon) (Text "AAA"));
     ("b.md", File (mkstat 5 today_noon) (Text "BBBBB"));
     ("sub", Dir (mkstat 4096 0) true [])].

Definition scenario_vault : node :=
  Dir (mkstat 4096 0) true
    [("CLAUDE.md", File (mkstat 5 0) (Text "vault"));
     ("Folder", scenario_folder);
     ("Empty", Dir (mkstat 4096 0) true [])].

Definition scenario_fs : node :=
  Dir (mkstat 4096 0) true
    [("v", scenario_vault);
     ("secret", File (mkstat 10 0) (Text "top secret"))].

Definition scenario_config : config := mkconfig (mkpath "/" ["v"]) "Folder".

(** [l1] is a prefix of [l2]. *)
Fixpoint list_prefix (l1 l2 : list string) : bool :=
  match l1, l2 with
  | [], _ => true
  | a :: l1', b :: l2' => String.eqb a b && list_prefix l1' l2'
  | _ :: _, [] => false
  end.

(** The location that [p] names, once its [".."] parts are followed, is
    [folder] or lies below it. *)
Definition lies_within (folder p : path) : bool :=
  list_prefix (normpath (parts folder)) (normpath (parts p)).


(** A name that a directory entry can have. *)
Definition valid_name (s : string) : bool :=
  negb (String.eqb s "") && negb (String.eqb s ".")
  && negb (String.eqb s "..") && negb (contains_char "/" s).

Fixpoint distinct (l : list string) : bool :=
  match l with
  | [] => true
  | x :: l' => negb (contains x l') && distinct l'
  end.

(** A tree in which every directory has valid, pairwise distinct entry
    names. *)
Fixpoint well_formed (n : node) : bool :=
  match n with
  | File _ _ => true
  | Dir _ _ es =>
      forallb valid_name (map fst es) && distinct (map fst es)
      && (fix all (l : list (string * node)) : bool :=
            match l with
            | [] => true
            | e :: l' => well_formed (snd e) && all l'
            end) es
  end.

(** A tree in which every directory can be listed. *)
Fixpoint all_listable (n : node) : bool :=
  match n with
  | File _ _ => true
  | Dir _ listable es =>
      listable
      && (fix all (l : list (string * node)) : bool :=
            match l with
            | [] => true
            | e :: l' => all_listable (snd e) && all l'
            end) es
  end.

(** The node reached from [n] by following entry names downwards. *)
Fixpoint descend (n : node) (names : list string) : option node :=
  match names with
  | [] => Some n
  | nm :: names' =>
      match n with
      | File _ _ => None
      | Dir _ _ es =>
          match lookup nm es with
          | Some c => descend c names'
          | None => None
          end
      end
  end.

Definition entries_of (n : node) : list (string * node) :=
  match n with File _ _ => [] | Dir _ _ es => es end.

(** The directory [n] directly contains a marker file. *)
Definition has_marker (n : node) : bool :=
  contains "CLAUDE.md" (filenames (entries_of n)).

(** No directory of the tree contains a marker file. *)
Fixpoint no_marker_anywhere (n : node) : bool :=
  match n with
  | File _ _ => true
  | Dir _ _ es =>
      negb (contains "CLAUDE.md" (filenames es))
      && (fix all (l : list (string * node)) : bool :=
            match l with
            | [] => true
            | e :: l' => no_marker_anywhere (snd e) && all l'
            end) es
  end.

(** The path [top] extended by entry names. *)
Definition extend (top : path) (names : list string) : path :=
  mkpath (anchor top) (parts top ++ names).

(** The directories on which a walk started at [n] calls [os.scandir]:
    [n] itself and, when it can be listed, those of its subdirectories.
    Each comes with the names that lead to it from [n]. *)
Fixpoint scandir_calls (n : node) : list (list string * node) :=
  ([], n) ::
  match n with
  | Dir _ true es =>
      (fix calls_in (l : list (string * node)) : list (list string * node) :=
         match l with
         | [] => []
         | (nm, File _ _) :: l' => calls_in l'
         | (nm, (Dir _ _ _) as d) :: l' =>
             map (fun c => (nm :: fst c, snd c)) (scandir_calls d) ++ calls_in l'
         end) es
  | _ => []
  end.

(** The entry of the result for a directory that holds a marker, given the
    names that lead to it from the vault root. *)
Definition navigation_label (names : list string) : string :=
  match names with
  | [] => "/ (root)"
  | _ => join_slash names
  end.

(** A vault with a subdirectory that cannot be listed. *)
Definition locked_directory : node :=
  Dir (mkstat 4096 0) false
    [("CLAUDE.md", File (mkstat 6 0) (Text "hidden"))].

Definition locked_vault : node :=
  Dir (mkstat 4096 0) true
    [("CLAUDE.md", File (mkstat 5 0) (Text "vault"));
     ("Locked", locked_directory)].

Definition locked_vault_fs : node :=
  Dir (mkstat 4096 0) true [("v", locked_vault)].

(** A vault whose root cannot be listed. *)
Definition unlistable_vault : node :=
  Dir (mkstat 4096 0) false
    [("CLAUDE.md", File (mkstat 5 0) (Text "vault"))].

Definition unlistable_vault_fs : node :=
  Dir (mkstat 4096 0) true [("v", unlistable_vault)].

(** A vault without any marker file. *)
Definition plain_vault : node :=
  Dir (mkstat 4096 0) true
    [("notes.md", File (mkstat 2 0) (Text "hi"));
     ("Folder", Dir (mkstat 4096 0) true
                  [("a.md", File (mkstat 3 0) (Text "AAA"))])].

Definition plain_vault_fs : node :=
  Dir (mkstat 4096 0) true [("v", plain_vault)].

(** What the walk yields for one call of [os.scandir]: the triple
    [(root, dirs, files)] when the call succeeds, nothing when it raises. *)
Definition walk_yield (top : path) (c : list string * node)
  : list (path * list string * list string) :=
  match scandir (extend top (fst c)) (snd c) with
  | Return es => [(extend top (fst c), dirnames es, filenames es)]
  | Raise _ => []
  end.

(** The calls of [os.scandir] inside the entries of a directory. *)
Definition scandir_calls_in (es : list (string * node))
  : list (list string * node) :=
  flat_map (fun e =>
              match snd e with
              | File _ _ => []
              | Dir _ _ _ =>
                  map (fun c => (fst e :: fst c, snd c)) (scandir_calls (snd e))
              end) es.

(** The directories that the walk lists and that hold a marker, as the
    names that lead to them. *)
Definition marker_directories (n : node) : list (list string) :=
  map fst (filter (fun c => match scandir (mkpath "/" []) (snd c) with
                            | Return _ => has_marker (snd c)
                            | Raise _ => false
                            end) (scandir_calls n)).

(** What one iteration of the loop of [_walk_directory] appends. *)
Definition walk_entry (cfg : config) (item : path * list string * list string)
  : list string :=
  let '(root, _, files) := item in
  if contains "CLAUDE.md" files then
    let rel_path := relpath root (VAULT_PATH cfg) in
    if String.eqb rel_path "." then ["/ (root)"] else [rel_path]
  else [].

(** What follows the first part in ["/".join(a :: l)]. *)
Definition join_tail (l : list string) : string :=
  match l with
  | [] => ""
  | _ => "/" +++ join_slash l
  end.

(** The fields of a [datetime] for which [strftime] prints exactly four
    digits for the year and two for every other field. *)
Definition four_digit_year (dt : datetime) : bool :=
  (1000 <=? year dt) && (year dt <=? 9999)
  && (1 <=? month dt) && (month dt <=? 12)
  && (1 <=? day dt) && (day dt <=? 31)
  && (0 <=? hour dt) && (hour dt <=? 23)
  && (0 <=? minute dt) && (minute dt <=? 59)
  && (0 <=? second dt) && (second dt <=? 59).

(** The wall-clock time of a [datetime] to the second, as the number
    YYYYMMDDhhmmss: later wall-clock seconds have larger numbers. *)
Definition wall_clock_second (dt : datetime) : Z :=
  ((((year dt * 100 + month dt) * 100 + day dt) * 100 + hour dt) * 100
   + minute dt) * 100 + second dt.

(** What two navigation results share when they report the same marker:
    its path, its content and whether it was loaded. *)
Definition navigation_core (r : navigation_result) : string * string * bool :=
  (nr_path r, nr_content r, nr_loaded r).

(** Two loaders end the same way: both return, with the same core, or both
    raise a [ToolError] carrying the same cause behind their own prefix. *)
Definition same_outcome (prefix1 prefix2 : string)
           (r1 r2 : result navigation_result) : Prop :=
  match r1, r2 with
  | Return a, Return b => navigation_core a = navigation_core b
  | Raise e1, Raise e2 =>
      exists cause,
        e1 = ToolError (prefix1 +++ ": " +++ cause)
        /\ e2 = ToolError (prefix2 +++ ": " +++ cause)
  | _, _ => False
  end.

(** A vault with a note, a directory whose [CLAUDE.md] is itself a
    directory, and a directory whose marker is not UTF-8 text. *)
Definition odd_markers_vault : node :=
  Dir (mkstat 4096 0) true
    [("notes.md", File (mkstat 2 0) (Text "hi"));
     ("D", Dir (mkstat 4096 0) true
             [("CLAUDE.md", Dir (mkstat 4096 0) true [])]);
     ("U", Dir (mkstat 4096 0) true
             [("CLAUDE.md",
               File (mkstat 1 0)
                 (Undecodable "byte 0xff in position 0: invalid start byte"))])].

Definition odd_markers_fs : node :=
  Dir (mkstat 4096 0) true [("v", odd_markers_vault)].

(** A time zone in which no timestamp converts. *)
Definition failing_fromtimestamp (t : Z) : result datetime :=
  Raise (ValueError "year 275760 is out of range").


(** A decimal digit. *)
Definition is_digit (c : ascii) : bool :=
  (Nat.leb 48 (nat_of_ascii c) && Nat.leb (nat_of_ascii c) 57)%bool.

(** The positions of the separators in [YYYY-MM-DD HH:MM:SS]. *)
Definition separator_at (i : nat) : option ascii :=
  match i with
  | 4%nat | 7%nat => Some "-"%char
  | 10%nat => Some " "%char
  | 13%nat | 16%nat => Some ":"%char
  | _ => None
  end.

(** The directory that [names] lead to from [n], when the walk lists it:
    the directory and every directory on the way to it can be listed. *)
Fixpoint walk_lists (n : node) (names : list string) : option node :=
  match n with
  | Dir _ true es =>
      match names with
      | [] => Some n
      | nm :: names' =>
          match lookup nm es with
          | Some c => walk_lists c names'
          | None => None
          end
      end
  | _ => None
  end.

(* ------------------------------------------------------------------ *)
(** * Properties *)

(** ** Strings and results *)

Lemma try_except_reraise {A : Type} (prefix : string) (body : result A) :
  returns_or_ToolError prefix (try_except body (reraise_as_ToolError prefix)).
Proof.
  destruct body as [a|e]; simpl; [exact I|].
  exists (str_exn e). reflexivity.
Qed.

Lemma exists_resolve fs p : exists_ fs p = true <-> exists n, resolve fs p = Some n.
Proof.
  unfold exists_. destruct (resolve fs p) as [n|]; split; intros H.
  - eauto.
  - reflexivity.
  - discriminate.
  - destruct H as [n H]. discriminate.
Qed.

Lemma exists_false_resolve fs p : exists_ fs p = false <-> resolve fs p = None.
Proof.
  unfold exists_. destruct (resolve fs p); split; intros H; congruence.
Qed.

(** The messages of the exceptions that [read_text] raises never start like
    a tool's own "not found" message. *)
Lemma read_text_error_message fs p e :
  read_text fs p = Raise e ->
  exists c rest, str_exn e = String c rest /\ (c = "[" \/ c = "'")%char.
Proof.
  unfold read_text.
  destruct (resolve fs p) as [[st [s|reason|]|st l es]|]; intros H;
    try discriminate; injection H as <-; simpl; eauto.
Qed.

(* ------------------------------------------------------------------ *)
(** ** The clock tool *)

(** C4.  [get_current_time] returns [now] formatted as
    [YYYY-MM-DD HH:MM:SS], but its timezone is [time.tzname[time.daylight]]:
    on a winter instant in a zone that has daylight-saving rules it returns
    the summer name (CEST), although daylight-saving time is not in effect
    and the name in effect is CET. *)
Theorem get_current_time_ignores_dst_state :
  get_current_time berlin_winter_noon
    = Return (mk_time_reading "2025-01-15 12:00:00" "CEST")
  /\ localtime_tm_isdst berlin_winter_noon = 0
  /\ tzname_in_effect berlin_winter_noon = "CET".
Proof. repeat split. Qed.

(* ------------------------------------------------------------------ *)
(** ** The navigation loaders *)

(** C8.  [load_navigation_context] raises its "Navigation file not found"
    error exactly when the vault-root marker path does not exist, and
    whenever it returns, [loaded] is true and [content] is the text that
    reading the marker file gives. *)
Theorem load_navigation_context_not_found_iff (cfg : config) (fs : node) :
  (load_navigation_context cfg fs
     = Raise (ToolError ("Failed to load navigation context: "
                           +++ "Navigation file not found at "
                           +++ str (VAULT_CLAUDE_MD cfg)))
   <-> exists_ fs (VAULT_CLAUDE_MD cfg) = false)
  /\ (forall r, load_navigation_context cfg fs = Return r ->
        nr_loaded r = true
        /\ read_text fs (VAULT_CLAUDE_MD cfg) = Return (nr_content r)).
Proof.
  unfold load_navigation_context.
  destruct (exists_ fs (VAULT_CLAUDE_MD cfg)) eqn:E; simpl.
  - split.
    + split; [|discriminate].
      destruct (read_text fs (VAULT_CLAUDE_MD cfg)) as [s|e] eqn:R; simpl;
        [discriminate|].
      intros H. exfalso.
      destruct (read_text_error_message _ _ _ R) as (c & rest & Hs & Hc).
      unfold reraise_as_ToolError in H. injection H as H.
      rewrite Hs in H. injection H as H _.
      destruct Hc; subst c; discriminate.
    + intros r H.
      destruct (read_text fs (VAULT_CLAUDE_MD cfg)) as [s|e]; simpl in H;
        [|discriminate].
      injection H as <-. simpl. auto.
  - split; [split; reflexivity|discriminate].
Qed.

Lemma load_navigation_context_witness :
  nr_loaded (mk_navigation_result "/v/CLAUDE.md" "vault" true
               "Top-level navigation context loaded successfully") = true
  /\ read_text scenario_fs (VAULT_CLAUDE_MD scenario_config) = Return "vault".
Proof.
  apply (proj2 (load_navigation_context_not_found_iff scenario_config scenario_fs)
               (mk_navigation_result "/v/CLAUDE.md" "vault" true
                  "Top-level navigation context loaded successfully")).
  reflexivity.
Defined.

(** A path resolves only if every path that it extends resolves. *)
Lemma resolve_step_none (ps : list string) :
  fold_left resolve_step ps None = None.
Proof. induction ps as [|c ps IH]; simpl; auto. Qed.

Lemma resolve_extends fs a b ps qs n :
  resolve fs (mkpath a (ps ++ qs)) = Some n ->
  exists m, resolve fs (mkpath b ps) = Some m.
Proof.
  unfold resolve. simpl. rewrite fold_left_app.
  destruct (fold_left resolve_step ps (Some ([], fs))) as [[above cur]|].
  - intros _. exists cur. reflexivity.
  - rewrite resolve_step_none. discriminate.
Qed.

Lemma read_text_Text fs p st text :
  resolve fs p = Some (File st (Text text)) -> read_text fs p = Return text.
Proof. unfold read_text. intros ->. reflexivity. Qed.

Lemma exists_of_resolve fs p n : resolve fs p = Some n -> exists_ fs p = true.
Proof. unfold exists_. intros ->. reflexivity. Qed.

(** C9.  [discover_subdirectory_navigation]: a subdirectory path that does
    not exist gives the "Subdirectory not found" error; one that exists
    without a marker path gives a result with [loaded = false]; a marker
    file with text gives [loaded = true] and that text. *)
Theorem discover_subdirectory_navigation_cases
        (cfg : config) (fs : node) (subdirectory : string) :
  let subdir_path := VAULT_PATH cfg // subdirectory in
  let claude_md_path := subdir_path // "CLAUDE.md" in
  (exists_ fs subdir_path = false ->
   discover_subdirectory_navigation cfg fs subdirectory
     = Raise (ToolError ("Failed to discover subdirectory navigation: "
                           +++ "Subdirectory not found: " +++ str subdir_path)))
  /\ (exists_ fs subdir_path = true ->
      exists_ fs claude_md_path = false ->
      discover_subdirectory_navigation cfg fs subdirectory
        = Return (mk_navigation_result (str claude_md_path) "" false
                    ("No CLAUDE.md found in " +++ subdirectory)))
  /\ (forall st text,
         resolve fs claude_md_path = Some (File st (Text text)) ->
         discover_subdirectory_navigation cfg fs subdirectory
           = Return (mk_navigation_result (str claude_md_path) text true
                       ("Subdirectory navigation for " +++ subdirectory
                          +++ " loaded successfully"))).
Proof.
  intros subdir_path claude_md_path.
  unfold discover_subdirectory_navigation.
  fold subdir_path. fold claude_md_path.
  repeat split.
  - intros ->. reflexivity.
  - intros -> ->. reflexivity.
  - intros st text H.
    destruct (resolve_extends fs _ (anchor subdir_path) _ _ _ H) as [m Hm].
    destruct subdir_path as [a ps]. simpl in Hm.
    rewrite (exists_of_resolve _ _ _ Hm), (exists_of_resolve _ _ _ H).
    simpl. rewrite (read_text_Text _ _ _ _ H). reflexivity.
Qed.

Lemma discover_subdirectory_navigation_witness :
  discover_subdirectory_navigation scenario_config scenario_fs "Nope"
    = Raise (ToolError "Failed to discover subdirectory navigation: Subdirectory not found: /v/Nope")
  /\ discover_subdirectory_navigation scenario_config scenario_fs "Empty"
    = Return (mk_navigation_result "/v/Empty/CLAUDE.md" "" false
                "No CLAUDE.md found in Empty")
  /\ discover_subdirectory_navigation scenario_config scenario_fs "Folder"
    = Return (mk_navigation_result "/v/Folder/CLAUDE.md" "folder" true
                "Subdirectory navigation for Folder loaded successfully").
Proof.
  split; [|split].
  - apply (proj1 (discover_subdirectory_navigation_cases
                    scenario_config scenario_fs "Nope")).
    reflexivity.
  - apply (proj1 (proj2 (discover_subdirectory_navigation_cases
                           scenario_config scenario_fs "Empty")));
      reflexivity.
  - apply (proj2 (proj2 (discover_subdirectory_navigation_cases
                           scenario_config scenario_fs "Folder"))
                 (mkstat 6 0) "folder").
    reflexivity.
Defined.

(* ------------------------------------------------------------------ *)
(** ** The file loader *)

Lemma stat_resolve fs p n : resolve fs p = Some n -> stat fs p = Return (node_stat n).
Proof. unfold stat. intros ->. reflexivity. Qed.

(** Whatever regular file the joined path names, the loader returns its
    text and metadata. *)
Lemma load_target_folder_file_reads
      fromtimestamp cfg fs filename st text modified :
  resolve fs (TARGET_FOLDER_PATH cfg // filename) = Some (File st (Text text)) ->
  fromtimestamp (st_mtime st) = Return modified ->
  load_target_folder_file fromtimestamp cfg fs filename
    = Return (mk_file_content filename
                (str (TARGET_FOLDER_PATH cfg // filename)) text
                (st_size st) (strftime modified) (TARGET_FOLDER cfg) true).
Proof.
  intros H Hm. unfold load_target_folder_file.
  rewrite (exists_of_resolve _ _ _ H). simpl.
  rewrite (read_text_Text _ _ _ _ H). simpl.
  rewrite (stat_resolve _ _ _ H). simpl. rewrite Hm. reflexivity.
Qed.






(** Every segment of the string that is joined onto a path, other than
    the empty one and ["."], is a part of the result: [".."] is kept. *)
Lemma joinpath_keeps_segments (p : path) (s c : string) :
  In c (split_slash s) -> c <> "" -> c <> "." -> In c (parts (p // s)).
Proof.
  intros Hin Hne Hnd.
  assert (Hp : In c (parse_parts s)).
  { unfold parse_parts. apply filter_In. split; [exact Hin|].
    apply negb_true_iff, orb_false_iff.
    split; apply String.eqb_neq; assumption. }
  unfold joinpath.
  destruct s as [|a s']; simpl parts; [apply in_or_app; right; exact Hp|].
  destruct a as [[] [] [] [] [] [] [] []]; simpl parts;
    solve [exact Hp | apply in_or_app; right; exact Hp].
Qed.

(** C6.  [load_target_folder_file] reads the path [TARGET_FOLDER_PATH /
    filename] as it is: whatever regular file that path names is returned,
    every [".."] of [filename] is a part of the path, and with
    ["../../secret"] the file that is read lies outside the target
    folder. *)
Theorem load_target_folder_file_follows_joined_path :
  (forall fromtimestamp cfg fs filename st text modified,
      resolve fs (TARGET_FOLDER_PATH cfg // filename)
        = Some (File st (Text text)) ->
      fromtimestamp (st_mtime st) = Return modified ->
      load_target_folder_file fromtimestamp cfg fs filename
        = Return (mk_file_content filename
                    (str (TARGET_FOLDER_PATH cfg // filename)) text
                    (st_size st) (strftime modified) (TARGET_FOLDER cfg) true))
  /\ (forall cfg filename,
         In ".." (split_slash filename) ->
         In ".." (parts (TARGET_FOLDER_PATH cfg // filename)))
  /\ (parts (TARGET_FOLDER_PATH scenario_config // "../../secret")
        = ["v"; "Folder"; ".."; ".."; "secret"]
      /\ lies_within (TARGET_FOLDER_PATH scenario_config)
           (TARGET_FOLDER_PATH scenario_config // "../../secret") = false
      /\ resolve scenario_fs (TARGET_FOLDER_PATH scenario_config // "../../secret")
         = resolve scenario_fs (mkpath "/" ["secret"])
      /\ load_target_folder_file utc_fromtimestamp scenario_config scenario_fs
           "../../secret"
         = Return (mk_file_content "../../secret" "/v/Folder/../../secret"
                     "top secret" 10 "1970-01-01 00:00:00" "Folder" true)).
Proof.
  split; [|split].
  - intros. apply load_target_folder_file_reads; assumption.
  - intros cfg filename H.
    apply joinpath_keeps_segments; [exact H| |]; discriminate.
  - repeat split.
Qed.

Lemma load_target_folder_file_follows_joined_path_witness :
  load_target_folder_file utc_fromtimestamp scenario_config scenario_fs "/secret"
    = Return (mk_file_content "/secret" "/secret" "top secret" 10
                "1970-01-01 00:00:00" "Folder" true)
  /\ In ".." (parts (TARGET_FOLDER_PATH scenario_config // "x/../b.md")).
Proof.
  split.
  - apply (proj1 load_target_folder_file_follows_joined_path
                 utc_fromtimestamp scenario_config scenario_fs "/secret"
                 (mkstat 10 0) "top secret" (mkdatetime 1970 1 1 0 0 0 0));
      reflexivity.
  - apply (proj1 (proj2 load_target_folder_file_follows_joined_path)
                 scenario_config "x/../b.md").
    simpl. auto.
Defined.

(* ------------------------------------------------------------------ *)
(** ** The directory walk *)

(** The recursive definitions over a directory, in terms of the list
    functions. *)
Lemma scandir_calls_Dir st es :
  scandir_calls (Dir st true es) = ([], Dir st true es) :: scandir_calls_in es.
Proof.
  simpl. f_equal. unfold scandir_calls_in.
  induction es as [|e l IH]; [reflexivity|].
  destruct e as [nm [st' d|st' l' es']]; simpl; rewrite IH; reflexivity.
Qed.

Lemma well_formed_Dir st l es :
  well_formed (Dir st l es)
  = forallb valid_name (map fst es) && distinct (map fst es)
    && forallb (fun e => well_formed (snd e)) es.
Proof.
  reflexivity.
Qed.

Lemma all_listable_Dir st l es :
  all_listable (Dir st l es)
  = l && forallb (fun e => all_listable (snd e)) es.
Proof.
  reflexivity.
Qed.

Lemma no_marker_anywhere_Dir st l es :
  no_marker_anywhere (Dir st l es)
  = negb (contains "CLAUDE.md" (filenames es))
    && forallb (fun e => no_marker_anywhere (snd e)) es.
Proof.
  reflexivity.
Qed.

Lemma extend_nil top : extend top [] = top.
Proof. destruct top as [a ps]. unfold extend. simpl. rewrite app_nil_r. reflexivity. Qed.

Lemma extend_child top nm names :
  extend (child top nm) names = extend top (nm :: names).
Proof. unfold extend, child. simpl. rewrite <- app_assoc. reflexivity. Qed.

Lemma walk_yield_child top nm c :
  walk_yield top (nm :: fst c, snd c) = walk_yield (child top nm) c.
Proof. unfold walk_yield. simpl. rewrite extend_child. reflexivity. Qed.

Lemma flat_map_walk_yield_child top nm cs :
  flat_map (walk_yield top) (map (fun c => (nm :: fst c, snd c)) cs)
  = flat_map (walk_yield (child top nm)) cs.
Proof.
  induction cs as [|c cs IH]; [reflexivity|].
  cbn [flat_map map]. rewrite IH, walk_yield_child. reflexivity.
Qed.

Lemma os_walk_node_Dir top st es :
  os_walk_node top (Dir st true es)
  = (top, dirnames es, filenames es)
      :: flat_map (fun e => match snd e with
                            | File _ _ => []
                            | Dir _ _ _ => os_walk_node (child top (fst e)) (snd e)
                            end) es.
Proof.
  simpl. f_equal.
  induction es as [|e l IH]; [reflexivity|].
  destruct e as [nm [st' d|st' l' es']]; simpl; rewrite IH; reflexivity.
Qed.

(** The walk yields one triple for every directory that it lists, in the
    order of the calls, and nothing for a call that fails. *)
Lemma os_walk_node_scandir_calls n :
  forall top, os_walk_node top n = flat_map (walk_yield top) (scandir_calls n).
Proof.
  induction n as [st data|st listable es IH] using node_ind; intros top.
  - reflexivity.
  - destruct listable; [|reflexivity].
    rewrite scandir_calls_Dir, os_walk_node_Dir.
    cbn [flat_map]. unfold walk_yield at 1. cbn [fst snd scandir app].
    rewrite extend_nil. f_equal.
    unfold scandir_calls_in.
    induction es as [|[nm c] l IHl]; [reflexivity|].
    inversion IH as [|? ? Hc Hl]; subst.
    cbn [flat_map fst snd]. rewrite flat_map_app, <- (IHl Hl).
    destruct c as [st' d|st' l' es']; [reflexivity|].
    f_equal. rewrite flat_map_walk_yield_child. apply Hc.
Qed.

(** *** Joined names *)

Lemma join_slash_cons a l : join_slash (a :: l) = a +++ join_tail l.
Proof.
  destruct l as [|b l]; simpl.
  - induction a as [|c a IH]; simpl; [reflexivity|]. rewrite <- IH. reflexivity.
  - reflexivity.
Qed.

Lemma valid_name_inv s :
  valid_name s = true ->
  s <> "" /\ s <> "." /\ s <> ".." /\ contains_char "/" s = false.
Proof.
  unfold valid_name. intros H.
  repeat (apply andb_true_iff in H; destruct H as [H ?]).
  repeat match goal with
         | X : negb _ = true |- _ => apply negb_true_iff in X
         end.
  repeat split; try (apply String.eqb_neq; assumption). assumption.
Qed.

(** Two slash-free strings followed by tails that are empty or start with
    a slash: equal wholes have equal pieces. *)
Lemma slash_free_append_inj a b s t :
  contains_char "/" a = false -> contains_char "/" b = false ->
  (s = "" \/ exists s', s = String "/" s') ->
  (t = "" \/ exists t', t = String "/" t') ->
  a +++ s = b +++ t -> a = b /\ s = t.
Proof.
  revert b. induction a as [|x a IH]; intros b Ha Hb Hs Ht H.
  - destruct b as [|y b]; simpl in H.
    + auto.
    + exfalso. simpl in Hb. apply orb_false_iff in Hb. destruct Hb as [Hy _].
      destruct Hs as [->|[s' ->]]; [discriminate|].
      injection H as <- _. rewrite Ascii.eqb_refl in Hy. discriminate.
  - simpl in Ha. apply orb_false_iff in Ha. destruct Ha as [Hx Ha].
    destruct b as [|y b]; simpl in H.
    + exfalso. destruct Ht as [->|[t' ->]]; [discriminate|].
      injection H as -> _. rewrite Ascii.eqb_refl in Hx. discriminate.
    + simpl in Hb. apply orb_false_iff in Hb. destruct Hb as [_ Hb].
      injection H as -> H.
      destruct (IH b Ha Hb Hs Ht H) as [-> ->]. auto.
Qed.

Lemma join_tail_shape l : join_tail l = "" \/ exists s', join_tail l = String "/" s'.
Proof. destruct l; simpl; eauto. Qed.

Lemma join_slash_inj l1 :
  forall l2,
    forallb valid_name l1 = true -> forallb valid_name l2 = true ->
    join_slash l1 = join_slash l2 -> l1 = l2.
Proof.
  induction l1 as [|a l1 IH]; intros l2 H1 H2 H.
  - destruct l2 as [|b l2]; [reflexivity|].
    exfalso. simpl in H2. apply andb_true_iff in H2. destruct H2 as [Hb _].
    apply valid_name_inv in Hb. destruct Hb as [Hb _].
    rewrite join_slash_cons in H. simpl in H.
    destruct b; [congruence|discriminate].
  - simpl in H1. apply andb_true_iff in H1. destruct H1 as [Ha H1].
    pose proof (valid_name_inv _ Ha) as (Hane & _ & _ & Hasl).
    destruct l2 as [|b l2].
    + exfalso. rewrite join_slash_cons in H. simpl in H.
      destruct a; [congruence|discriminate].
    + simpl in H2. apply andb_true_iff in H2. destruct H2 as [Hb H2].
      pose proof (valid_name_inv _ Hb) as (_ & _ & _ & Hbsl).
      rewrite !join_slash_cons in H.
      destruct (slash_free_append_inj _ _ _ _ Hasl Hbsl
                  (join_tail_shape l1) (join_tail_shape l2) H) as [-> Ht].
      f_equal. apply IH; try assumption.
      destruct l1 as [|a1 l1], l2 as [|b2 l2]; simpl in Ht;
        try reflexivity; try discriminate.
      injection Ht as Ht. exact Ht.
Qed.

Lemma join_slash_first a l :
  valid_name a = true ->
  exists c rest, join_slash (a :: l) = String c rest /\ c <> "/"%char
                 /\ (rest = "" -> a = String c "" /\ l = []).
Proof.
  intros Ha. pose proof (valid_name_inv _ Ha) as (Hne & _ & _ & Hsl).
  rewrite join_slash_cons.
  destruct a as [|c a]; [congruence|]. simpl.
  exists c, (a +++ join_tail l). split; [reflexivity|]. split.
  - simpl in Hsl. apply orb_false_iff in Hsl. destruct Hsl as [Hc _].
    intros ->. rewrite Ascii.eqb_refl in Hc. discriminate.
  - intros E. destruct a as [|x a]; [|discriminate]. simpl in E.
    destruct l; [auto|discriminate].
Qed.

Lemma navigation_label_inj l1 l2 :
  forallb valid_name l1 = true -> forallb valid_name l2 = true ->
  navigation_label l1 = navigation_label l2 -> l1 = l2.
Proof.
  intros H1 H2 H.
  destruct l1 as [|a l1], l2 as [|b l2]; try reflexivity.
  - exfalso. simpl in H2. apply andb_true_iff in H2. destruct H2 as [Hb _].
    destruct (join_slash_first b l2 Hb) as (c & rest & E & Hc & _).
    unfold navigation_label in H. rewrite E in H. injection H as H _.
    apply Hc. symmetry. exact H.
  - exfalso. simpl in H1. apply andb_true_iff in H1. destruct H1 as [Ha _].
    destruct (join_slash_first a l1 Ha) as (c & rest & E & Hc & _).
    unfold navigation_label in H. rewrite E in H. injection H as H _.
    apply Hc. exact H.
  - apply join_slash_inj; assumption.
Qed.

Lemma join_slash_not_dot a l :
  forallb valid_name (a :: l) = true ->
  String.eqb (join_slash (a :: l)) "." = false.
Proof.
  intros H. simpl in H. apply andb_true_iff in H. destruct H as [Ha _].
  apply String.eqb_neq. intros E.
  destruct (join_slash_first a l Ha) as (c & rest & E' & _ & Hrest).
  rewrite E' in E. injection E as -> ->.
  destruct (Hrest eq_refl) as [-> _].
  apply valid_name_inv in Ha. destruct Ha as (_ & Hd & _). congruence.
Qed.

(** *** Relative paths of the directories below the vault root *)

Lemma normpath_step_valid names :
  forallb valid_name names = true ->
  forall acc, fold_left normpath_step names acc = rev names ++ acc.
Proof.
  induction names as [|a names IH]; intros H acc; [reflexivity|].
  simpl in H. apply andb_true_iff in H. destruct H as [Ha H].
  apply valid_name_inv in Ha. destruct Ha as (_ & _ & Hdd & _).
  simpl. unfold normpath_step at 2.
  apply String.eqb_neq in Hdd. rewrite Hdd.
  rewrite (IH H). rewrite <- app_assoc. reflexivity.
Qed.

Lemma normpath_extend ps names :
  forallb valid_name names = true ->
  normpath (ps ++ names) = normpath ps ++ names.
Proof.
  intros H. unfold normpath. rewrite fold_left_app, (normpath_step_valid _ H).
  rewrite rev_app_distr, rev_involutive. reflexivity.
Qed.

Lemma common_prefix_length_app l m :
  common_prefix_length l (l ++ m) = List.length l.
Proof.
  induction l as [|a l IH]; simpl; [destruct m; reflexivity|].
  rewrite String.eqb_refl, IH. reflexivity.
Qed.

Lemma skipn_length_app (l m : list string) : skipn (List.length l) (l ++ m) = m.
Proof. induction l as [|a l IH]; simpl; auto. Qed.

Lemma relpath_extend V names :
  forallb valid_name names = true ->
  relpath (extend V names) V
  = match names with [] => "." | _ => join_slash names end.
Proof.
  intros H. unfold relpath, extend. simpl parts.
  rewrite (normpath_extend _ _ H), common_prefix_length_app.
  rewrite Nat.sub_diag, skipn_length_app. reflexivity.
Qed.

(** For a directory reached through valid names, the loop appends the
    label of the directory when it holds a marker, and nothing otherwise. *)
Lemma walk_entry_extend cfg names dirs files :
  forallb valid_name names = true ->
  walk_entry cfg (extend (VAULT_PATH cfg) names, dirs, files)
  = if contains "CLAUDE.md" files then [navigation_label names] else [].
Proof.
  intros H. unfold walk_entry. rewrite (relpath_extend _ _ H).
  destruct (contains "CLAUDE.md" files); [|reflexivity].
  destruct names as [|a l]; [reflexivity|].
  rewrite (join_slash_not_dot _ _ H). reflexivity.
Qed.

(** *** The loop *)

Lemma for_each_appends {A B : Type} (g : A -> list B)
      (body : list B -> A -> result (list B)) :
  (forall acc x, body acc x = Return (acc ++ g x)) ->
  forall xs acc, for_each xs acc body = Return (acc ++ flat_map g xs).
Proof.
  intros Hb xs. induction xs as [|x xs IH]; intros acc; simpl.
  - rewrite app_nil_r. reflexivity.
  - rewrite Hb. simpl. rewrite IH, app_assoc. reflexivity.
Qed.

Lemma _walk_directory_flat_map cfg fs :
  _walk_directory cfg fs
  = Return (flat_map (walk_entry cfg) (os_walk fs (VAULT_PATH cfg))).
Proof.
  unfold _walk_directory.
  rewrite (for_each_appends (walk_entry cfg)); [reflexivity|].
  intros acc [[root dirs] files]. unfold walk_entry.
  destruct (contains "CLAUDE.md" files); [|rewrite app_nil_r; reflexivity].
  destruct (String.eqb (relpath root (VAULT_PATH cfg)) "."); reflexivity.
Qed.

(** The tool never raises. *)
Lemma list_navigation_files_returns cfg fs :
  list_navigation_files cfg fs
  = Return (mk_navigation_listing
              (flat_map (walk_entry cfg) (os_walk fs (VAULT_PATH cfg)))
              (List.length (flat_map (walk_entry cfg) (os_walk fs (VAULT_PATH cfg))))
              (str (VAULT_PATH cfg)) (str (TARGET_FOLDER_PATH cfg))).
Proof.
  unfold list_navigation_files. rewrite _walk_directory_flat_map. reflexivity.
Qed.

(** *** The directories that the walk lists *)

Lemma scandir_calls_unlistable st es :
  scandir_calls (Dir st false es) = [([], Dir st false es)].
Proof. reflexivity. Qed.

Lemma in_scandir_calls_in es names d :
  In (names, d) (scandir_calls_in es) <->
  exists nm st l es' names',
    In (nm, Dir st l es') es /\ names = nm :: names'
    /\ In (names', d) (scandir_calls (Dir st l es')).
Proof.
  unfold scandir_calls_in. rewrite in_flat_map. split.
  - intros [[nm c] [Hin H]]. simpl in H.
    destruct c as [st' data|st' l' es']; [contradiction|].
    apply in_map_iff in H. destruct H as [[names' d'] [E H]].
    simpl in E. injection E as <- <-.
    exists nm, st', l', es', names'. auto.
  - intros (nm & st' & l' & es' & names' & Hin & -> & H).
    exists (nm, Dir st' l' es'). split; [exact Hin|].
    cbn [snd fst]. apply in_map_iff. exists (names', d). auto.
Qed.

Lemma in_scandir_calls n names d :
  In (names, d) (scandir_calls n) <->
  (names = [] /\ d = n)
  \/ (exists st es, n = Dir st true es /\ In (names, d) (scandir_calls_in es)).
Proof.
  destruct n as [st data|st [|] es].
  - simpl. split.
    + intros [E|[]]. injection E as <- <-. auto.
    + intros [[-> ->]|(st' & es' & E & _)]; [auto|discriminate].
  - rewrite scandir_calls_Dir. simpl. split.
    + intros [E|H]; [injection E as <- <-; auto|]. right. eauto.
    + intros [[-> ->]|(st' & es' & E & H)]; [auto|].
      injection E as <- <-. auto.
  - rewrite scandir_calls_unlistable. simpl. split.
    + intros [E|[]]. injection E as <- <-. auto.
    + intros [[-> ->]|(st' & es' & E & _)]; [auto|discriminate].
Qed.

(** The names that lead to a listed directory are valid names. *)
Lemma scandir_calls_valid n :
  well_formed n = true ->
  forall names d, In (names, d) (scandir_calls n) ->
                  forallb valid_name names = true.
Proof.
  induction n as [st data|st listable es IH] using node_ind;
    intros Hwf names d Hin.
  - apply in_scandir_calls in Hin.
    destruct Hin as [[-> _]|(st' & es' & E & _)]; [reflexivity|discriminate].
  - apply in_scandir_calls in Hin.
    destruct Hin as [[-> _]|(st' & es' & E & Hin)]; [reflexivity|].
    injection E as <- -> <-.
    rewrite well_formed_Dir in Hwf.
    apply andb_true_iff in Hwf. destruct Hwf as [Hwf Hch].
    apply andb_true_iff in Hwf. destruct Hwf as [Hval _].
    apply in_scandir_calls_in in Hin.
    destruct Hin as (nm & st1 & l1 & es1 & names' & Hin & -> & Hc).
    rewrite Forall_forall in IH. rewrite forallb_forall in Hval, Hch.
    simpl. apply andb_true_iff. split.
    + apply Hval. apply in_map_iff. exists (nm, Dir st1 l1 es1). auto.
    + apply (IH _ Hin (Hch _ Hin) names' d Hc).
Qed.

Lemma lookup_In nm es c : lookup nm es = Some c -> In (nm, c) es.
Proof.
  induction es as [|[k n] es IH]; simpl; [discriminate|].
  destruct (String.eqb_spec k nm) as [->|Hne].
  - intros E. injection E as ->. auto.
  - auto.
Qed.

Lemma contains_In x l : contains x l = true <-> In x l.
Proof.
  unfold contains. rewrite existsb_exists. split.
  - intros [y [Hin E]]. apply String.eqb_eq in E. subst. exact Hin.
  - intros Hin. exists x. split; [exact Hin|apply String.eqb_refl].
Qed.

Lemma In_lookup nm es c :
  distinct (map fst es) = true -> In (nm, c) es -> lookup nm es = Some c.
Proof.
  induction es as [|[k n] es IH]; simpl; [contradiction|].
  intros Hd Hin. apply andb_true_iff in Hd. destruct Hd as [Hk Hd].
  destruct Hin as [E|Hin].
  - injection E as -> ->. rewrite String.eqb_refl. reflexivity.
  - destruct (String.eqb_spec k nm) as [->|Hne]; [|auto].
    exfalso. apply negb_true_iff in Hk.
    assert (Hc : contains nm (map fst es) = true).
    { apply contains_In. apply in_map_iff. exists (nm, c). auto. }
    congruence.
Qed.

(** A directory that the walk lists is the one that its names lead to. *)
Lemma scandir_calls_descend n :
  well_formed n = true ->
  forall names d, In (names, d) (scandir_calls n) -> descend n names = Some d.
Proof.
  induction n as [st data|st listable es IH] using node_ind;
    intros Hwf names d Hin.
  - apply in_scandir_calls in Hin.
    destruct Hin as [[-> ->]|(st' & es' & E & _)]; [reflexivity|discriminate].
  - apply in_scandir_calls in Hin.
    destruct Hin as [[-> ->]|(st' & es' & E & Hin)]; [reflexivity|].
    injection E as <- -> <-.
    rewrite well_formed_Dir in Hwf.
    apply andb_true_iff in Hwf. destruct Hwf as [Hwf Hch].
    apply andb_true_iff in Hwf. destruct Hwf as [_ Hdis].
    apply in_scandir_calls_in in Hin.
    destruct Hin as (nm & st1 & l1 & es1 & names' & Hin & -> & Hc).
    rewrite Forall_forall in IH. rewrite forallb_forall in Hch.
    simpl. rewrite (In_lookup _ _ _ Hdis Hin).
    apply (IH _ Hin (Hch _ Hin) names' d Hc).
Qed.

(** In a well-formed tree the walk lists no directory twice. *)
Lemma NoDup_scandir_calls n :
  well_formed n = true -> NoDup (map fst (scandir_calls n)).
Proof.
  induction n as [st data|st listable es IH] using node_ind; intros Hwf.
  - simpl. constructor; [intros []|constructor].
  - destruct listable;
      [|rewrite scandir_calls_unlistable; simpl;
        constructor; [intros []|constructor]].
    rewrite scandir_calls_Dir. simpl. constructor.
    + intros H. apply in_map_iff in H. destruct H as [[names d] [E H]].
      simpl in E. subst names. apply in_scandir_calls_in in H.
      destruct H as (nm & ? & ? & ? & ? & _ & E & _). discriminate.
    + rewrite well_formed_Dir in Hwf.
      apply andb_true_iff in Hwf. destruct Hwf as [Hwf Hch].
      apply andb_true_iff in Hwf. destruct Hwf as [_ Hdis].
      unfold scandir_calls_in.
      induction es as [|[nm c] es IHes]; [constructor|].
      inversion IH as [|? ? Hc Hes]; subst. simpl in Hc.
      simpl in Hch. apply andb_true_iff in Hch. destruct Hch as [Hwc Hch].
      simpl in Hdis. apply andb_true_iff in Hdis. destruct Hdis as [Hnm Hdis].
      cbn [flat_map fst snd]. rewrite map_app. apply NoDup_app.
      * destruct c as [st' data|st' l' es']; [constructor|].
        rewrite map_map. cbn [fst].
        rewrite <- (map_map fst (cons nm)).
        apply Finite.Injective_map_NoDup; [|apply Hc; exact Hwc].
        intros x y E. injection E as E. exact E.
      * apply IHes; assumption.
      * intros names H1 H2.
        destruct c as [st' data|st' l' es']; [contradiction|].
        apply in_map_iff in H1. destruct H1 as [[n1 d1] [E1 H1]].
        apply in_map_iff in H1. destruct H1 as [[n0 d0] [E0 _]].
        injection E0 as <- <-. simpl in E1. subst names.
        apply in_map_iff in H2. destruct H2 as [[n2 d2] [E2 H2]].
        simpl in E2. subst n2.
        apply (in_scandir_calls_in es (nm :: n0) d2) in H2.
        destruct H2 as (nm' & st2 & l2 & es2 & names' & Hin & E & _).
        injection E as <- _.
        apply negb_true_iff in Hnm.
        assert (Hc' : contains nm (map fst es) = true).
        { apply contains_In. apply in_map_iff.
          exists (nm, Dir st2 l2 es2). auto. }
        congruence.
Qed.

Lemma NoDup_map_filter {A B : Type} (f : A -> B) (p : A -> bool) l :
  NoDup (map f l) -> NoDup (map f (filter p l)).
Proof.
  induction l as [|a l IH]; simpl; intros H; [constructor|].
  inversion H as [|? ? Hn Hl]; subst.
  destruct (p a); [|auto]. simpl. constructor; [|auto].
  intros Hin. apply Hn. apply in_map_iff in Hin.
  destruct Hin as [x [E Hx]]. apply filter_In in Hx.
  apply in_map_iff. exists x. tauto.
Qed.

(** The result of the loop over the walk: the labels of the listed
    directories that hold a marker. *)
Lemma walk_entries_marker_directories cfg cs :
  (forall names d, In (names, d) cs -> forallb valid_name names = true) ->
  flat_map (walk_entry cfg) (flat_map (walk_yield (VAULT_PATH cfg)) cs)
  = map navigation_label
      (map fst (filter (fun c => match scandir (mkpath "/" []) (snd c) with
                                 | Return _ => has_marker (snd c)
                                 | Raise _ => false
                                 end) cs)).
Proof.
  induction cs as [|[names d] cs IH]; intros Hv; [reflexivity|].
  cbn [flat_map filter]. rewrite flat_map_app, IH
    by (intros n' d' H; apply (Hv n' d'); right; exact H).
  assert (Hn : forallb valid_name names = true)
    by (apply (Hv names d); left; reflexivity).
  unfold walk_yield at 1. cbn [fst snd].
  destruct d as [st data|st [|] es]; cbn [scandir flat_map app]; try reflexivity.
  rewrite (walk_entry_extend _ _ _ _ Hn), app_nil_r.
  unfold has_marker. cbn [entries_of].
  destruct (contains "CLAUDE.md" (filenames es)); reflexivity.
Qed.

Lemma list_navigation_files_marker_directories cfg fs vault :
  resolve fs (VAULT_PATH cfg) = Some vault ->
  well_formed vault = true ->
  list_navigation_files cfg fs
  = Return (mk_navigation_listing
              (map navigation_label (marker_directories vault))
              (List.length (map navigation_label (marker_directories vault)))
              (str (VAULT_PATH cfg)) (str (TARGET_FOLDER_PATH cfg))).
Proof.
  intros Hr Hwf. rewrite list_navigation_files_returns.
  unfold os_walk. rewrite Hr, os_walk_node_scandir_calls.
  rewrite walk_entries_marker_directories
    by (apply scandir_calls_valid; exact Hwf).
  reflexivity.
Qed.

Lemma in_marker_directories n names :
  In names (marker_directories n) <->
  exists d, In (names, d) (scandir_calls n)
            /\ match scandir (mkpath "/" []) d with
               | Return _ => has_marker d
               | Raise _ => false
               end = true.
Proof.
  unfold marker_directories. rewrite in_map_iff. split.
  - intros [[names' d] [E H]]. simpl in E. subst names'.
    apply filter_In in H. exists d. exact H.
  - intros [d H]. exists (names, d). split; [reflexivity|].
    apply filter_In. exact H.
Qed.

Lemma marker_directories_valid n names :
  well_formed n = true -> In names (marker_directories n) ->
  forallb valid_name names = true.
Proof.
  intros Hwf H. apply in_marker_directories in H. destruct H as [d [H _]].
  apply (scandir_calls_valid n Hwf names d H).
Qed.

Lemma NoDup_marker_labels n :
  well_formed n = true ->
  NoDup (map navigation_label (marker_directories n)).
Proof.
  intros Hwf. apply NoDup_map_NoDup_ForallPairs.
  - intros x y Hx Hy E.
    apply navigation_label_inj;
      [apply (marker_directories_valid n)|apply (marker_directories_valid n)|];
      assumption.
  - unfold marker_directories. apply NoDup_map_filter.
    apply NoDup_scandir_calls. exact Hwf.
Qed.

Lemma no_marker_scandir_calls n :
  no_marker_anywhere n = true ->
  forall names d, In (names, d) (scandir_calls n) -> has_marker d = false.
Proof.
  induction n as [st data|st listable es IH] using node_ind;
    intros Hno names d Hin.
  - apply in_scandir_calls in Hin.
    destruct Hin as [[_ ->]|(st' & es' & E & _)]; [reflexivity|discriminate].
  - rewrite no_marker_anywhere_Dir in Hno.
    apply andb_true_iff in Hno. destruct Hno as [Hhere Hch].
    apply in_scandir_calls in Hin.
    destruct Hin as [[_ ->]|(st' & es' & E & Hin)].
    + apply negb_true_iff in Hhere. exact Hhere.
    + injection E as <- -> <-.
      apply in_scandir_calls_in in Hin.
      destruct Hin as (nm & st1 & l1 & es1 & names' & Hin & -> & Hc).
      rewrite Forall_forall in IH. rewrite forallb_forall in Hch.
      apply (IH _ Hin (Hch _ Hin) names' d Hc).
Qed.

Lemma flat_map_nil {A B : Type} (f : A -> list B) l :
  (forall x, In x l -> f x = []) -> flat_map f l = [].
Proof.
  induction l as [|a l IH]; intros H; [reflexivity|].
  simpl. rewrite (H a (or_introl eq_refl)), IH; [reflexivity|].
  intros x Hx. apply H. right. exact Hx.
Qed.

Lemma list_navigation_files_no_marker cfg fs vault :
  resolve fs (VAULT_PATH cfg) = Some vault ->
  no_marker_anywhere vault = true ->
  list_navigation_files cfg fs
  = Return (mk_navigation_listing [] 0%nat
              (str (VAULT_PATH cfg)) (str (TARGET_FOLDER_PATH cfg))).
Proof.
  intros Hr Hno. rewrite list_navigation_files_returns.
  unfold os_walk. rewrite Hr, os_walk_node_scandir_calls.
  rewrite flat_map_nil; [reflexivity|].
  intros [[root dirs] files] Hin.
  apply in_flat_map in Hin. destruct Hin as [[names d] [Hc Hy]].
  pose proof (no_marker_scandir_calls _ Hno _ _ Hc) as Hm.
  unfold walk_yield in Hy. cbn [fst snd] in Hy.
  destruct d as [st data|st [|] es]; cbn [scandir] in Hy;
    try contradiction.
  destruct Hy as [E|[]]. injection E as <- <- <-.
  unfold walk_entry. unfold has_marker in Hm. cbn [entries_of] in Hm.
  rewrite Hm. reflexivity.
Qed.

(* ------------------------------------------------------------------ *)
(** ** The navigation listing *)

(** *** The directories that the walk lists, by their names *)

Lemma walk_lists_nil n d : walk_lists n [] = Some d -> d = n.
Proof.
  destruct n as [st data|st [|] es]; simpl; intros E;
    [discriminate|injection E as <-; reflexivity|discriminate].
Qed.

Lemma walk_lists_listable names :
  forall n d, walk_lists n names = Some d -> exists st es, d = Dir st true es.
Proof.
  induction names as [|nm names IH]; intros n d H;
    destruct n as [st data|st [|] es]; simpl in H; try discriminate.
  - injection H as <-. eauto.
  - destruct (lookup nm es) as [c|]; [apply (IH c d H)|discriminate].
Qed.

Lemma walk_lists_scandir_calls names :
  forall n d, walk_lists n names = Some d -> In (names, d) (scandir_calls n).
Proof.
  induction names as [|nm names IH]; intros n d H;
    destruct n as [st data|st [|] es]; simpl in H; try discriminate.
  - injection H as <-. apply in_scandir_calls. auto.
  - destruct (lookup nm es) as [c|] eqn:L; [|discriminate].
    pose proof (lookup_In _ _ _ L) as Hin.
    destruct c as [st' data|st' l' es'];
      [destruct names; discriminate|].
    apply in_scandir_calls. right. exists st, es. split; [reflexivity|].
    apply in_scandir_calls_in.
    exists nm, st', l', es', names. repeat split; [exact Hin|].
    apply IH. exact H.
Qed.

Lemma scandir_calls_walk_lists n :
  well_formed n = true ->
  forall names d st' es',
    In (names, d) (scandir_calls n) -> d = Dir st' true es' ->
    walk_lists n names = Some d.
Proof.
  induction n as [st data|st listable es IH] using node_ind;
    intros Hwf names d st' es' Hin Ed.
  - apply in_scandir_calls in Hin.
    destruct Hin as [[-> ->]|(st0 & es0 & E & _)]; discriminate.
  - apply in_scandir_calls in Hin.
    destruct Hin as [[-> ->]|(st0 & es0 & E & Hin)].
    + injection Ed as -> -> ->. reflexivity.
    + injection E as <- -> <-.
      rewrite well_formed_Dir in Hwf.
      apply andb_true_iff in Hwf. destruct Hwf as [Hwf Hch].
      apply andb_true_iff in Hwf. destruct Hwf as [_ Hdis].
      apply in_scandir_calls_in in Hin.
      destruct Hin as (nm & st1 & l1 & es1 & names' & Hin & -> & Hc).
      rewrite Forall_forall in IH. rewrite forallb_forall in Hch.
      simpl. rewrite (In_lookup _ _ _ Hdis Hin).
      apply (IH _ Hin (Hch _ Hin) names' d st' es' Hc Ed).
Qed.

(** The labels of the result stand for the marker directories that the
    walk lists. *)
Lemma in_marker_directories_walk_lists n names :
  well_formed n = true ->
  (In names (marker_directories n) <->
   exists d, walk_lists n names = Some d /\ has_marker d = true).
Proof.
  intros Hwf. rewrite in_marker_directories. split.
  - intros [d [Hin Hm]].
    destruct d as [st data|st [|] es]; cbn [scandir] in Hm;
      try discriminate.
    exists (Dir st true es). split; [|exact Hm].
    apply (scandir_calls_walk_lists n Hwf names _ st es Hin eq_refl).
  - intros [d [Hw Hm]]. exists d.
    split; [apply walk_lists_scandir_calls; exact Hw|].
    destruct (walk_lists_listable _ _ _ Hw) as (st & es & ->).
    cbn [scandir]. exact Hm.
Qed.

(** Where every directory can be listed, the walk lists every directory
    of the tree. *)
Lemma walk_lists_of_descend names :
  forall n d,
    all_listable n = true -> descend n names = Some d ->
    is_dir_node d = true -> walk_lists n names = Some d.
Proof.
  induction names as [|nm names IH]; intros n d Hall Hd Hdir.
  - simpl in Hd. injection Hd as ->.
    destruct d as [st data|st l es]; [discriminate|].
    rewrite all_listable_Dir in Hall.
    apply andb_true_iff in Hall. destruct Hall as [-> _]. reflexivity.
  - destruct n as [st data|st l es]; [discriminate|].
    simpl in Hd. destruct (lookup nm es) as [c|] eqn:L; [|discriminate].
    rewrite all_listable_Dir in Hall.
    apply andb_true_iff in Hall. destruct Hall as [-> Hch].
    rewrite forallb_forall in Hch.
    simpl. rewrite L.
    apply IH; [apply (Hch _ (lookup_In _ _ _ L))|exact Hd|exact Hdir].
Qed.

(** C7, as the code has it.  In a well-formed vault,
    [list_navigation_files] reports the directories that hold a marker
    file and that the walk lists, that is, which can be listed together
    with every directory above them.  It reports ["/ (root)"] exactly when
    the vault root can be listed and directly holds a marker file, reports
    every other listed directory that directly holds a marker file exactly
    once, as its path relative to the vault root, reports nothing else,
    and reports nothing twice.  Where every directory of the vault can be
    listed, the walk lists every directory of the tree. *)
Theorem list_navigation_files_one_entry_per_marker_directory
        (cfg : config) (fs : node) (vault : node) :
  resolve fs (VAULT_PATH cfg) = Some vault ->
  well_formed vault = true ->
  exists l,
    list_navigation_files cfg fs
      = Return (mk_navigation_listing l (List.length l)
                  (str (VAULT_PATH cfg)) (str (TARGET_FOLDER_PATH cfg)))
    /\ (In "/ (root)" l
        <-> walk_lists vault [] = Some vault /\ has_marker vault = true)
    /\ (forall names d,
           names <> [] -> walk_lists vault names = Some d ->
           has_marker d = true ->
           relpath (extend (VAULT_PATH cfg) names) (VAULT_PATH cfg)
             = join_slash names
           /\ count_occ string_dec l (join_slash names) = 1%nat)
    /\ (forall s, In s l ->
           s = "/ (root)"
           \/ exists names d,
               names <> [] /\ walk_lists vault names = Some d
               /\ has_marker d = true /\ s = join_slash names)
    /\ NoDup l
    /\ (all_listable vault = true ->
        forall names d,
          descend vault names = Some d -> is_dir_node d = true ->
          walk_lists vault names = Some d).
Proof.
  intros Hr Hwf.
  exists (map navigation_label (marker_directories vault)).
  pose proof (NoDup_marker_labels vault Hwf) as Hnd.
  split; [apply list_navigation_files_marker_directories; assumption|].
  split; [|split; [|split; [|split; [exact Hnd|]]]].
  - split.
    + intros H. apply in_map_iff in H. destruct H as [names [E Hin]].
      assert (names = []) as ->.
      { apply navigation_label_inj;
          [apply (marker_directories_valid vault); assumption
          |reflexivity|exact E]. }
      apply (in_marker_directories_walk_lists _ _ Hwf) in Hin.
      destruct Hin as [d [Hd Hm]].
      pose proof (walk_lists_nil _ _ Hd) as ->. auto.
    + intros [Hw Hm]. apply in_map_iff. exists []. split; [reflexivity|].
      apply (in_marker_directories_walk_lists _ _ Hwf). exists vault. auto.
  - intros names d Hne Hd Hm.
    assert (Hin : In names (marker_directories vault))
      by (apply (in_marker_directories_walk_lists _ _ Hwf); eauto).
    split.
    + rewrite relpath_extend
        by (apply (marker_directories_valid vault); assumption).
      destruct names; [congruence|reflexivity].
    + apply NoDup_count_occ'; [exact Hnd|].
      apply in_map_iff. exists names. split; [|exact Hin].
      destruct names; [congruence|reflexivity].
  - intros s H. apply in_map_iff in H. destruct H as [names [E Hin]].
    destruct names as [|a names]; [left; symmetry; exact E|]. right.
    apply (in_marker_directories_walk_lists _ _ Hwf) in Hin.
    destruct Hin as [d [Hd Hm]].
    exists (a :: names), d. repeat split; try assumption; [discriminate|].
    symmetry. exact E.
  - intros Hall names d Hd Hdir.
    apply walk_lists_of_descend; assumption.
Qed.

Lemma list_navigation_files_scenario_witness :
  exists l,
    list_navigation_files scenario_config scenario_fs
      = Return (mk_navigation_listing l (List.length l) "/v" "/v/Folder")
    /\ (In "/ (root)" l
        <-> walk_lists scenario_vault [] = Some scenario_vault
            /\ has_marker scenario_vault = true)
    /\ (forall names d,
           names <> [] -> walk_lists scenario_vault names = Some d ->
           has_marker d = true ->
           relpath (extend (VAULT_PATH scenario_config) names)
                   (VAULT_PATH scenario_config)
             = join_slash names
           /\ count_occ string_dec l (join_slash names) = 1%nat)
    /\ (forall s, In s l ->
           s = "/ (root)"
           \/ exists names d,
               names <> [] /\ walk_lists scenario_vault names = Some d
               /\ has_marker d = true /\ s = join_slash names)
    /\ NoDup l
    /\ (all_listable scenario_vault = true ->
        forall names d,
          descend scenario_vault names = Some d -> is_dir_node d = true ->
          walk_lists scenario_vault names = Some d).
Proof.
  apply (list_navigation_files_one_entry_per_marker_directory
           scenario_config scenario_fs scenario_vault); reflexivity.
Defined.

(** C7 as stated fails: the directory [/v/Locked] directly holds a marker
    file, and the result has no entry for it, because the walk cannot list
    it. *)
Lemma unlisted_marker_directory_counterexample :
  descend locked_vault ["Locked"] = Some locked_directory
  /\ has_marker locked_directory = true
  /\ list_navigation_files scenario_config locked_vault_fs
     = Return (mk_navigation_listing ["/ (root)"] 1%nat "/v" "/v/Folder")
  /\ count_occ string_dec ["/ (root)"] (join_slash ["Locked"]) = 0%nat.
Proof. repeat split. Qed.

(** C3, as the code has it.  [list_navigation_files] returns in every
    state of the file system: a directory whose listing fails during the
    walk raises nothing, it is skipped, and the result holds the labels of
    the marker directories that the walk could list.  A vault root that
    exists and holds no marker file anywhere gives the empty list with
    count 0. *)
Theorem list_navigation_files_skips_unlistable (cfg : config) (fs : node) :
  (exists l,
      list_navigation_files cfg fs
        = Return (mk_navigation_listing l (List.length l)
                    (str (VAULT_PATH cfg)) (str (TARGET_FOLDER_PATH cfg))))
  /\ (forall vault,
         resolve fs (VAULT_PATH cfg) = Some vault ->
         well_formed vault = true ->
         list_navigation_files cfg fs
           = Return (mk_navigation_listing
                       (map navigation_label (marker_directories vault))
                       (List.length (marker_directories vault))
                       (str (VAULT_PATH cfg)) (str (TARGET_FOLDER_PATH cfg))))
  /\ (forall vault,
         resolve fs (VAULT_PATH cfg) = Some vault ->
         no_marker_anywhere vault = true ->
         list_navigation_files cfg fs
           = Return (mk_navigation_listing [] 0%nat
                       (str (VAULT_PATH cfg)) (str (TARGET_FOLDER_PATH cfg)))).
Proof.
  split; [|split].
  - eexists. apply list_navigation_files_returns.
  - intros vault Hr Hwf.
    rewrite (list_navigation_files_marker_directories _ _ _ Hr Hwf).
    rewrite length_map. reflexivity.
  - apply list_navigation_files_no_marker.
Qed.

Lemma list_navigation_files_skips_unlistable_witness :
  list_navigation_files scenario_config locked_vault_fs
    = Return (mk_navigation_listing ["/ (root)"] 1%nat "/v" "/v/Folder")
  /\ list_navigation_files scenario_config plain_vault_fs
    = Return (mk_navigation_listing [] 0%nat "/v" "/v/Folder").
Proof.
  split.
  - apply (proj1 (proj2 (list_navigation_files_skips_unlistable
                           scenario_config locked_vault_fs))
                 locked_vault); reflexivity.
  - apply (proj2 (proj2 (list_navigation_files_skips_unlistable
                           scenario_config plain_vault_fs))
                 plain_vault); reflexivity.
Defined.

(** C3 as stated fails: the walk calls [os.scandir] on [/v/Locked], the
    call raises [PermissionError], and [list_navigation_files] returns a
    listing all the same, without the marker directory [Locked]. *)
Lemma list_navigation_files_unlistable_counterexample :
  In (["Locked"], locked_directory) (scandir_calls locked_vault)
  /\ scandir (extend (VAULT_PATH scenario_config) ["Locked"]) locked_directory
     = Raise (PermissionError "/v/Locked")
  /\ list_navigation_files scenario_config locked_vault_fs
     = Return (mk_navigation_listing ["/ (root)"] 1%nat "/v" "/v/Folder").
Proof.
  split; [|split]; [|reflexivity|reflexivity].
  simpl. right. left. reflexivity.
Qed.

(* ------------------------------------------------------------------ *)
(** ** Errors at the boundary of the tools *)

(** C10, as the code has it.  Whatever a tool raises reaches the caller as
    a [ToolError] whose message is the prefix of the tool followed by the
    text of the cause; no other exception leaves a tool.  A directory
    listing that fails inside the walk of [list_navigation_files] is not
    raised at all: that tool returns in every state. *)
Theorem tools_raise_only_ToolError
        (fromtimestamp : Z -> result datetime) (cfg : config) (fs : node)
        (clk : clock) (file_extension filename subdirectory : string) :
  returns_or_ToolError "Failed to get current time" (get_current_time clk)
  /\ returns_or_ToolError "Failed to load navigation context"
       (load_navigation_context cfg fs)
  /\ returns_or_ToolError "Failed to load target folder context"
       (load_target_folder_context cfg fs)
  /\ returns_or_ToolError "Failed to discover subdirectory navigation"
       (discover_subdirectory_navigation cfg fs subdirectory)
  /\ returns_or_ToolError "Failed to list navigation files"
       (list_navigation_files cfg fs)
  /\ returns_or_ToolError "Failed to list target folder files"
       (list_target_folder_files fromtimestamp cfg fs file_extension)
  /\ returns_or_ToolError ("Failed to load file " +++ filename)
       (load_target_folder_file fromtimestamp cfg fs filename)
  /\ (exists r, list_navigation_files cfg fs = Return r).
Proof.
  repeat split; try apply try_except_reraise.
  eexists. apply list_navigation_files_returns.
Qed.

(** C10 as stated fails: listing the vault root raises [PermissionError]
    inside [list_navigation_files], and the caller receives an empty
    listing instead of an error. *)
Lemma swallowed_listing_failure_counterexample :
  resolve unlistable_vault_fs (VAULT_PATH scenario_config)
    = Some unlistable_vault
  /\ scandir (VAULT_PATH scenario_config) unlistable_vault
     = Raise (PermissionError "/v")
  /\ has_marker unlistable_vault = true
  /\ list_navigation_files scenario_config unlistable_vault_fs
     = Return (mk_navigation_listing [] 0%nat "/v" "/v/Folder").
Proof. repeat split. Qed.

(* ------------------------------------------------------------------ *)
(** ** The folder listing *)

(** The [await] on the async generator of [iterdir] raises before the loop
    of [_list_files] starts, whatever the folder holds and whatever the
    filter is. *)
Lemma _list_files_raises fromtimestamp cfg fs file_extension :
  _list_files fromtimestamp cfg fs file_extension
  = Raise (TypeError
             "object async_generator can't be used in 'await' expression").
Proof. reflexivity. Qed.

(** C1, at an input where the code departs from it.  The target folder
    [/v/Folder] of [scenario_fs] exists and holds the files [CLAUDE.md],
    [a.md] and [b.md].  Called with the filter [md], the tool returns no
    entry at all: the [await] on the async generator raises [TypeError],
    and the caller receives it as a [ToolError]. *)
Theorem list_target_folder_files_filter_raises :
  exists_ scenario_fs (TARGET_FOLDER_PATH scenario_config) = true
  /\ list_target_folder_files utc_fromtimestamp scenario_config scenario_fs
       "md"
     = Raise (ToolError
                ("Failed to list target folder files: "
                   +++ "object async_generator can't be used in 'await' "
                   +++ "expression")).
Proof. split; reflexivity. Qed.

(** C2, at an input where the code departs from it.  The target folder
    [/v/Folder] of [scenario_fs] holds three regular files and one
    subdirectory.  Called without filter, the tool returns no list, of
    length three or otherwise: it raises the same [ToolError]. *)
Theorem list_target_folder_files_unfiltered_raises :
  resolve scenario_fs (TARGET_FOLDER_PATH scenario_config)
    = Some scenario_folder
  /\ List.length (filter (fun e => is_file_node (snd e))
                    (entries_of scenario_folder)) = 3%nat
  /\ list_target_folder_files utc_fromtimestamp scenario_config scenario_fs
       ""
     = Raise (ToolError
                ("Failed to list target folder files: "
                   +++ "object async_generator can't be used in 'await' "
                   +++ "expression")).
Proof. repeat split. Qed.

(** [list_target_folder_files] never returns a listing.  When the check of
    the target folder does not find it, the tool raises "Target folder not
    found"; when the check finds it, be it a directory or a file, the tool
    raises the [TypeError] of the [await], for every filter and every
    content of the folder. *)
Theorem list_target_folder_files_never_returns
        (fromtimestamp : Z -> result datetime) (cfg : config) (fs : node)
        (file_extension : string) :
  (exists_ fs (TARGET_FOLDER_PATH cfg) = false ->
   list_target_folder_files fromtimestamp cfg fs file_extension
     = Raise (ToolError ("Failed to list target folder files: "
                           +++ "Target folder not found: "
                           +++ str (TARGET_FOLDER_PATH cfg))))
  /\ (exists_ fs (TARGET_FOLDER_PATH cfg) = true ->
      list_target_folder_files fromtimestamp cfg fs file_extension
        = Raise (ToolError
                   ("Failed to list target folder files: "
                      +++ "object async_generator can't be used in 'await' "
                      +++ "expression")))
  /\ (forall r,
         list_target_folder_files fromtimestamp cfg fs file_extension
         <> Return r).
Proof.
  unfold list_target_folder_files. rewrite _list_files_raises.
  destruct (exists_ fs (TARGET_FOLDER_PATH cfg)); cbn [negb bind try_except];
    repeat split; try discriminate; intros _; reflexivity.
Qed.

Lemma list_target_folder_files_never_returns_witness :
  list_target_folder_files failing_fromtimestamp scenario_config
    odd_markers_fs "md"
    = Raise (ToolError ("Failed to list target folder files: "
                          +++ "Target folder not found: "
                          +++ str (TARGET_FOLDER_PATH scenario_config)))
  /\ list_target_folder_files failing_fromtimestamp scenario_config
       plain_vault_fs "txt"
     = Raise (ToolError
                ("Failed to list target folder files: "
                   +++ "object async_generator can't be used in 'await' "
                   +++ "expression")).
Proof.
  split.
  - apply (proj1 (list_target_folder_files_never_returns
                    failing_fromtimestamp scenario_config odd_markers_fs
                    "md")).
    reflexivity.
  - apply (proj1 (proj2 (list_target_folder_files_never_returns
                           failing_fromtimestamp scenario_config
                           plain_vault_fs "txt"))).
    reflexivity.
Defined.

(* ------------------------------------------------------------------ *)
(** ** Entries of a directory *)


(* ------------------------------------------------------------------ *)
(** ** The order of formatted times *)

Lemma digit_compare x y :
  0 <= x < 10 -> 0 <= y < 10 ->
  Ascii.compare (digit x) (digit y) = Z.compare x y.
Proof.
  intros Hx Hy.
  assert (Ex : x = 0 \/ x = 1 \/ x = 2 \/ x = 3 \/ x = 4 \/ x = 5 \/ x = 6
               \/ x = 7 \/ x = 8 \/ x = 9) by lia.
  assert (Ey : y = 0 \/ y = 1 \/ y = 2 \/ y = 3 \/ y = 4 \/ y = 5 \/ y = 6
               \/ y = 7 \/ y = 8 \/ y = 9) by lia.
  repeat (destruct Ex as [->|Ex]); try subst x;
    repeat (destruct Ey as [->|Ey]); try subst y; reflexivity.
Qed.

Lemma compare_by_last_digit a b :
  Z.compare a b
  = match Z.compare (a / 10) (b / 10) with
    | Eq => Z.compare (a mod 10) (b mod 10)
    | c => c
    end.
Proof.
  pose proof (Z_div_mod_eq_full a 10) as Ea.
  pose proof (Z_div_mod_eq_full b 10) as Eb.
  pose proof (Z.mod_pos_bound a 10 ltac:(lia)) as Ba.
  pose proof (Z.mod_pos_bound b 10 ltac:(lia)) as Bb.
  destruct (Z.compare_spec (a / 10) (b / 10)) as [E|L|G].
  - destruct (Z.compare_spec (a mod 10) (b mod 10));
      [apply Z.compare_eq_iff|apply Z.compare_lt_iff|apply Z.compare_gt_iff];
      lia.
  - apply Z.compare_lt_iff. lia.
  - apply Z.compare_gt_iff. lia.
Qed.

(** Zero-padded numbers of the same width compare as the numbers do. *)
Lemma zero_padded_compare w :
  forall a b s t,
    0 <= a < 10 ^ Z.of_nat w -> 0 <= b < 10 ^ Z.of_nat w ->
    String.compare (zero_padded w a s) (zero_padded w b t)
    = match Z.compare a b with
      | Eq => String.compare s t
      | c => c
      end.
Proof.
  induction w as [|w IH]; intros a b s t Ha Hb.
  - simpl in *. assert (a = 0) as -> by lia. assert (b = 0) as -> by lia.
    reflexivity.
  - rewrite Nat2Z.inj_succ, Z.pow_succ_r in Ha, Hb by lia.
    pose proof (Z_div_mod_eq_full a 10) as Ea.
    pose proof (Z_div_mod_eq_full b 10) as Eb.
    pose proof (Z.mod_pos_bound a 10 ltac:(lia)) as Ba.
    pose proof (Z.mod_pos_bound b 10 ltac:(lia)) as Bb.
    cbn [zero_padded]. rewrite IH by lia.
    rewrite (compare_by_last_digit a b).
    destruct (Z.compare (a / 10) (b / 10)); try reflexivity.
    cbn [String.compare]. rewrite digit_compare by lia.
    reflexivity.
Qed.

Lemma four_digit_year_inv dt :
  four_digit_year dt = true ->
  1000 <= year dt <= 9999 /\ 1 <= month dt <= 12 /\ 1 <= day dt <= 31
  /\ 0 <= hour dt <= 23 /\ 0 <= minute dt <= 59 /\ 0 <= second dt <= 59.
Proof.
  unfold four_digit_year. intros H.
  repeat (apply andb_true_iff in H; destruct H as [H ?]).
  repeat match goal with
         | X : (_ <=? _) = true |- _ => apply Z.leb_le in X
         end.
  lia.
Qed.

Lemma strftime_compare a b :
  four_digit_year a = true -> four_digit_year b = true ->
  String.compare (strftime a) (strftime b)
  = Z.compare (wall_clock_second a) (wall_clock_second b).
Proof.
  intros Ha Hb.
  apply four_digit_year_inv in Ha. apply four_digit_year_inv in Hb.
  unfold strftime, wall_clock_second.
  assert (P4 : 10 ^ Z.of_nat 4 = 10000) by reflexivity.
  assert (P2 : 10 ^ Z.of_nat 2 = 100) by reflexivity.
  repeat (rewrite zero_padded_compare by (rewrite ?P4, ?P2; lia);
          cbn [String.compare]; change (Ascii.compare "-" "-") with Eq;
          change (Ascii.compare " " " ") with Eq;
          change (Ascii.compare ":" ":") with Eq; cbv iota).
  destruct (Z.compare_spec (year a) (year b));
    destruct (Z.compare_spec (month a) (month b));
    destruct (Z.compare_spec (day a) (day b));
    destruct (Z.compare_spec (hour a) (hour b));
    destruct (Z.compare_spec (minute a) (minute b));
    destruct (Z.compare_spec (second a) (second b));
    symmetry;
    first [apply Z.compare_eq_iff; lia
          |apply Z.compare_lt_iff; lia
          |apply Z.compare_gt_iff; lia].
Qed.

(* ------------------------------------------------------------------ *)
(** ** More on the navigation loaders *)

(** [load_target_folder_context]: a missing marker is a result with
    [loaded = false], not an error; a marker file with text is returned;
    and every returned record tells in [loaded] whether the check of the
    marker path found it. *)
Theorem load_target_folder_context_cases (cfg : config) (fs : node) :
  (exists_ fs (TARGET_CLAUDE_MD cfg) = false ->
   load_target_folder_context cfg fs
     = Return (mk_navigation_result (str (TARGET_CLAUDE_MD cfg)) "" false
                 ("No CLAUDE.md found in target folder: "
                    +++ str (TARGET_FOLDER_PATH cfg))))
  /\ (forall st text,
         resolve fs (TARGET_CLAUDE_MD cfg) = Some (File st (Text text)) ->
         load_target_folder_context cfg fs
           = Return (mk_navigation_result (str (TARGET_CLAUDE_MD cfg)) text true
                       "Target folder navigation loaded successfully"))
  /\ (forall r,
         load_target_folder_context cfg fs = Return r ->
         nr_loaded r = exists_ fs (TARGET_CLAUDE_MD cfg)
         /\ nr_path r = str (TARGET_CLAUDE_MD cfg)
         /\ (nr_loaded r = false -> nr_content r = "")).
Proof.
  unfold load_target_folder_context. repeat split.
  - intros ->. reflexivity.
  - intros st text H. rewrite (exists_of_resolve _ _ _ H). simpl.
    rewrite (read_text_Text _ _ _ _ H). reflexivity.
  - destruct (exists_ fs (TARGET_CLAUDE_MD cfg)); simpl in *.
    + destruct (read_text fs (TARGET_CLAUDE_MD cfg)); simpl in H;
        [injection H as <-; reflexivity|discriminate].
    + injection H as <-. reflexivity.
  - destruct (exists_ fs (TARGET_CLAUDE_MD cfg)); simpl in *.
    + destruct (read_text fs (TARGET_CLAUDE_MD cfg)); simpl in H;
        [injection H as <-; reflexivity|discriminate].
    + injection H as <-. reflexivity.
  - destruct (exists_ fs (TARGET_CLAUDE_MD cfg)); simpl in *.
    + destruct (read_text fs (TARGET_CLAUDE_MD cfg)); simpl in H;
        [injection H as <-; simpl; discriminate|discriminate].
    + injection H as <-. reflexivity.
Qed.

Lemma load_target_folder_context_cases_witness :
  load_target_folder_context scenario_config plain_vault_fs
    = Return (mk_navigation_result "/v/Folder/CLAUDE.md" "" false
                "No CLAUDE.md found in target folder: /v/Folder")
  /\ load_target_folder_context scenario_config scenario_fs
    = Return (mk_navigation_result "/v/Folder/CLAUDE.md" "folder" true
                "Target folder navigation loaded successfully").
Proof.
  split.
  - apply (proj1 (load_target_folder_context_cases
                    scenario_config plain_vault_fs)).
    reflexivity.
  - apply (proj1 (proj2 (load_target_folder_context_cases
                           scenario_config scenario_fs))
                 (mkstat 6 0) "folder").
    reflexivity.
Defined.

Lemma exists_extends fs a b ps qs :
  exists_ fs (mkpath a ps) = false -> exists_ fs (mkpath b (ps ++ qs)) = false.
Proof.
  intros H. apply exists_false_resolve.
  destruct (resolve fs (mkpath b (ps ++ qs))) as [n|] eqn:R; [|reflexivity].
  destruct (resolve_extends fs b a ps qs n R) as [m Hm].
  apply exists_false_resolve in H. congruence.
Qed.

(** [load_target_folder_context] and [discover_subdirectory_navigation]
    called with the target folder look at the same marker.  Where the
    target folder exists they end the same way; where it does not, the
    first returns [loaded = false] and the second raises "Subdirectory not
    found". *)
Theorem load_target_folder_context_agrees_with_discover
        (cfg : config) (fs : node) :
  (exists_ fs (TARGET_FOLDER_PATH cfg) = true ->
   same_outcome "Failed to load target folder context"
     "Failed to discover subdirectory navigation"
     (load_target_folder_context cfg fs)
     (discover_subdirectory_navigation cfg fs (TARGET_FOLDER cfg)))
  /\ (exists_ fs (TARGET_FOLDER_PATH cfg) = false ->
      load_target_folder_context cfg fs
        = Return (mk_navigation_result (str (TARGET_CLAUDE_MD cfg)) "" false
                    ("No CLAUDE.md found in target folder: "
                       +++ str (TARGET_FOLDER_PATH cfg)))
      /\ discover_subdirectory_navigation cfg fs (TARGET_FOLDER cfg)
         = Raise (ToolError ("Failed to discover subdirectory navigation: "
                               +++ "Subdirectory not found: "
                               +++ str (TARGET_FOLDER_PATH cfg)))).
Proof.
  unfold load_target_folder_context, discover_subdirectory_navigation.
  change (VAULT_PATH cfg // TARGET_FOLDER cfg) with (TARGET_FOLDER_PATH cfg).
  change (TARGET_FOLDER_PATH cfg // "CLAUDE.md") with (TARGET_CLAUDE_MD cfg).
  split.
  - intros ->. simpl.
    destruct (exists_ fs (TARGET_CLAUDE_MD cfg)); simpl; [|reflexivity].
    destruct (read_text fs (TARGET_CLAUDE_MD cfg)) as [s|e]; simpl;
      [reflexivity|].
    exists (str_exn e). split; reflexivity.
  - intros H. rewrite H. simpl.
    assert (Hm : exists_ fs (TARGET_CLAUDE_MD cfg) = false).
    { unfold TARGET_CLAUDE_MD. destruct (TARGET_FOLDER_PATH cfg) as [a ps].
      apply (exists_extends fs a a ps ["CLAUDE.md"] H). }
    rewrite Hm. split; reflexivity.
Qed.

Lemma load_target_folder_context_agrees_with_discover_witness :
  same_outcome "Failed to load target folder context"
    "Failed to discover subdirectory navigation"
    (load_target_folder_context scenario_config scenario_fs)
    (discover_subdirectory_navigation scenario_config scenario_fs "Folder")
  /\ discover_subdirectory_navigation (mkconfig (mkpath "/" ["v"]) "Gone")
       scenario_fs "Gone"
     = Raise (ToolError "Failed to discover subdirectory navigation: Subdirectory not found: /v/Gone").
Proof.
  split.
  - apply (proj1 (load_target_folder_context_agrees_with_discover
                    scenario_config scenario_fs)).
    reflexivity.
  - apply (proj2 (load_target_folder_context_agrees_with_discover
                    (mkconfig (mkpath "/" ["v"]) "Gone") scenario_fs)).
    reflexivity.
Defined.

Lemma joinpath_empty p : p // "" = p.
Proof. destruct p as [a ps]. unfold joinpath. simpl. rewrite app_nil_r. reflexivity. Qed.

(** [discover_subdirectory_navigation] called with the empty string looks
    at the marker of the vault root, as [load_navigation_context] does.
    Where that marker exists the two end the same way; where the vault
    root exists without it, the first returns [loaded = false] and the
    second raises "Navigation file not found". *)
Theorem discover_empty_subdirectory_is_vault_root (cfg : config) (fs : node) :
  (exists_ fs (VAULT_CLAUDE_MD cfg) = true ->
   same_outcome "Failed to load navigation context"
     "Failed to discover subdirectory navigation"
     (load_navigation_context cfg fs)
     (discover_subdirectory_navigation cfg fs ""))
  /\ (exists_ fs (VAULT_PATH cfg) = true ->
      exists_ fs (VAULT_CLAUDE_MD cfg) = false ->
      load_navigation_context cfg fs
        = Raise (ToolError ("Failed to load navigation context: "
                              +++ "Navigation file not found at "
                              +++ str (VAULT_CLAUDE_MD cfg)))
      /\ discover_subdirectory_navigation cfg fs ""
         = Return (mk_navigation_result (str (VAULT_CLAUDE_MD cfg)) "" false
                     "No CLAUDE.md found in ")).
Proof.
  unfold load_navigation_context, discover_subdirectory_navigation.
  rewrite joinpath_empty.
  change (VAULT_PATH cfg // "CLAUDE.md") with (VAULT_CLAUDE_MD cfg).
  split.
  - intros Hm. rewrite Hm. simpl.
    assert (Hv : exists_ fs (VAULT_PATH cfg) = true).
    { apply exists_resolve in Hm. destruct Hm as [n Hn].
      unfold VAULT_CLAUDE_MD in Hn. destruct (VAULT_PATH cfg) as [a ps].
      destruct (resolve_extends fs a a ps ["CLAUDE.md"] n Hn) as [m Hr].
      apply (exists_of_resolve _ _ _ Hr). }
    rewrite Hv. simpl.
    destruct (read_text fs (VAULT_CLAUDE_MD cfg)) as [s|e]; simpl;
      [reflexivity|].
    exists (str_exn e). split; reflexivity.
  - intros -> ->. split; reflexivity.
Qed.

Lemma discover_empty_subdirectory_is_vault_root_witness :
  same_outcome "Failed to load navigation context"
    "Failed to discover subdirectory navigation"
    (load_navigation_context scenario_config scenario_fs)
    (discover_subdirectory_navigation scenario_config scenario_fs "")
  /\ discover_subdirectory_navigation scenario_config plain_vault_fs ""
     = Return (mk_navigation_result "/v/CLAUDE.md" "" false
                 "No CLAUDE.md found in ").
Proof.
  split.
  - apply (proj1 (discover_empty_subdirectory_is_vault_root
                    scenario_config scenario_fs)).
    reflexivity.
  - apply (proj2 (discover_empty_subdirectory_is_vault_root
                    scenario_config plain_vault_fs)); reflexivity.
Defined.




(* ------------------------------------------------------------------ *)
(** ** From the navigation listing to the loaders *)

Lemma split_slash_slash_free s :
  contains_char "/" s = false -> split_slash s = [s].
Proof.
  induction s as [|c s IH]; simpl; intros H; [reflexivity|].
  apply orb_false_iff in H. destruct H as [Hc Hs].
  rewrite Hc, (IH Hs). reflexivity.
Qed.

Lemma split_slash_append a t :
  contains_char "/" a = false ->
  split_slash (a +++ String "/" t) = a :: split_slash t.
Proof.
  induction a as [|c a IH]; simpl; intros H; [reflexivity|].
  apply orb_false_iff in H. destruct H as [Hc Ha].
  rewrite Hc, (IH Ha). reflexivity.
Qed.

(** Splitting undoes joining, for names without slash. *)
Lemma split_slash_join_slash names :
  names <> [] -> forallb valid_name names = true ->
  split_slash (join_slash names) = names.
Proof.
  induction names as [|a l IH]; intros Hne Hv; [congruence|].
  simpl in Hv. apply andb_true_iff in Hv. destruct Hv as [Ha Hl].
  pose proof (valid_name_inv _ Ha) as (_ & _ & _ & Hsl).
  destruct l as [|b l].
  - simpl. apply split_slash_slash_free. exact Hsl.
  - change (join_slash (a :: b :: l))
      with (a +++ String "/" (join_slash (b :: l))).
    rewrite (split_slash_append _ _ Hsl), IH; [reflexivity|discriminate|exact Hl].
Qed.

Lemma parse_parts_join_slash names :
  forallb valid_name names = true -> parse_parts (join_slash names) = names.
Proof.
  intros Hv. destruct names as [|a l]; [reflexivity|].
  unfold parse_parts.
  rewrite split_slash_join_slash by (congruence || exact Hv).
  apply forallb_filter_id. rewrite forallb_forall in *.
  intros x Hx. apply Hv in Hx. apply valid_name_inv in Hx.
  destruct Hx as (H1 & H2 & _).
  apply String.eqb_neq in H1, H2. rewrite H1, H2. reflexivity.
Qed.

Lemma joinpath_relative p c rest :
  c <> "/"%char ->
  p // String c rest = mkpath (anchor p) (parts p ++ parse_parts (String c rest)).
Proof.
  intros Hc. unfold joinpath.
  destruct c as [[] [] [] [] [] [] [] []]; try reflexivity.
  exfalso. apply Hc. reflexivity.
Qed.

(** Joining the label of a directory onto the vault root gives the path of
    that directory. *)
Lemma joinpath_join_slash p names :
  forallb valid_name names = true -> p // join_slash names = extend p names.
Proof.
  intros Hv. destruct names as [|a l].
  - simpl join_slash. rewrite joinpath_empty, extend_nil. reflexivity.
  - pose proof Hv as Hv'. simpl in Hv'. apply andb_true_iff in Hv'.
    destruct Hv' as [Ha _].
    destruct (join_slash_first a l Ha) as (c & rest & E & Hc & _).
    rewrite E, (joinpath_relative _ _ _ Hc), <- E.
    rewrite (parse_parts_join_slash _ Hv). reflexivity.
Qed.









(** A vault path that names nothing, a regular file, or a directory that
    cannot be listed gives the empty navigation listing, not an error. *)
Theorem list_navigation_files_without_vault (cfg : config) (fs : node) :
  resolve fs (VAULT_PATH cfg) = None
  \/ (exists st data, resolve fs (VAULT_PATH cfg) = Some (File st data))
  \/ (exists st es, resolve fs (VAULT_PATH cfg) = Some (Dir st false es)) ->
  list_navigation_files cfg fs
  = Return (mk_navigation_listing [] 0%nat
              (str (VAULT_PATH cfg)) (str (TARGET_FOLDER_PATH cfg))).
Proof.
  intros H. rewrite list_navigation_files_returns. unfold os_walk.
  destruct H as [->|[(st & data & ->)|(st & es & ->)]]; reflexivity.
Qed.

Lemma list_navigation_files_without_vault_witness :
  list_navigation_files (mkconfig (mkpath "/" ["nowhere"]) "Folder") scenario_fs
  = Return (mk_navigation_listing [] 0%nat "/nowhere" "/nowhere/Folder").
Proof.
  apply (list_navigation_files_without_vault
           (mkconfig (mkpath "/" ["nowhere"]) "Folder") scenario_fs).
  left. reflexivity.
Defined.

(** The walk is top-down: the label of the vault root, when the listing
    has it, is the first entry. *)
Theorem root_label_comes_first
        (cfg : config) (fs : node) (vault : node) (r : navigation_listing) :
  resolve fs (VAULT_PATH cfg) = Some vault ->
  well_formed vault = true ->
  list_navigation_files cfg fs = Return r ->
  In "/ (root)" (nl_available_navigation r) ->
  hd_error (nl_available_navigation r) = Some "/ (root)".
Proof.
  intros Hr Hwf Hl Hin.
  rewrite (list_navigation_files_marker_directories _ _ _ Hr Hwf) in Hl.
  injection Hl as <-. cbn [nl_available_navigation] in *.
  apply in_map_iff in Hin. destruct Hin as [names [E Hnames]].
  assert (names = []) as ->.
  { apply navigation_label_inj;
      [apply (marker_directories_valid vault); assumption|reflexivity|exact E]. }
  apply in_marker_directories in Hnames. destruct Hnames as [d [Hc Hp]].
  pose proof (scandir_calls_descend _ Hwf _ _ Hc) as Hd.
  simpl in Hd. injection Hd as <-.
  destruct vault as [st data|st [|] es]; try discriminate.
  unfold marker_directories. rewrite scandir_calls_Dir.
  cbn [filter snd]. rewrite Hp. reflexivity.
Qed.

Lemma root_label_comes_first_witness :
  hd_error ["/ (root)"; "Folder"] = Some "/ (root)".
Proof.
  apply (root_label_comes_first scenario_config scenario_fs scenario_vault
           (mk_navigation_listing ["/ (root)"; "Folder"] 2%nat "/v" "/v/Folder")).
  - reflexivity.
  - reflexivity.
  - reflexivity.
  - simpl. auto.
Defined.

Lemma joinpath_valid_name p nm : valid_name nm = true -> p // nm = child p nm.
Proof.
  intros Hv.
  assert (Hl : forallb valid_name [nm] = true) by (simpl; rewrite Hv; reflexivity).
  apply (joinpath_join_slash p [nm] Hl).
Qed.

(* ------------------------------------------------------------------ *)
(** ** More on the file loader *)

(** A successful load is always of a regular file that reads as text:
    the record has [loaded = true], echoes the file name and the target
    folder, and carries the text and the size of the file that the joined
    path names. *)
Theorem load_target_folder_file_success_is_a_text_file
        (fromtimestamp : Z -> result datetime) (cfg : config) (fs : node)
        (filename : string) (r : file_content) :
  load_target_folder_file fromtimestamp cfg fs filename = Return r ->
  fc_loaded r = true
  /\ fc_filename r = filename
  /\ fc_target_folder r = TARGET_FOLDER cfg
  /\ fc_path r = str (TARGET_FOLDER_PATH cfg // filename)
  /\ exists st modified,
      resolve fs (TARGET_FOLDER_PATH cfg // filename)
        = Some (File st (Text (fc_content r)))
      /\ fc_size r = st_size st
      /\ fromtimestamp (st_mtime st) = Return modified
      /\ fc_modified r = strftime modified.
Proof.
  unfold load_target_folder_file, read_text, stat.
  destruct (exists_ fs (TARGET_FOLDER_PATH cfg // filename));
    cbn [negb try_except]; [|discriminate].
  destruct (resolve fs (TARGET_FOLDER_PATH cfg // filename))
    as [[st [text|reason|]|st l es]|]; cbn [bind try_except];
    try discriminate.
  cbn [node_stat].
  destruct (fromtimestamp (st_mtime st)) as [modified|] eqn:Ft;
    cbn [bind try_except]; [|discriminate].
  intros H. injection H as <-. cbn.
  repeat split. exists st, modified. auto.
Qed.

Lemma load_target_folder_file_success_is_a_text_file_witness :
  fc_loaded (mk_file_content "a.md" "/v/Folder/a.md" "AAA" 3
               "2025-01-14 12:00:00" "Folder" true) = true
  /\ "a.md" = "a.md"
  /\ "Folder" = TARGET_FOLDER scenario_config
  /\ "/v/Folder/a.md" = str (TARGET_FOLDER_PATH scenario_config // "a.md")
  /\ exists st modified,
      resolve scenario_fs (TARGET_FOLDER_PATH scenario_config // "a.md")
        = Some (File st (Text "AAA"))
      /\ 3 = st_size st
      /\ utc_fromtimestamp (st_mtime st) = Return modified
      /\ "2025-01-14 12:00:00" = strftime modified.
Proof.
  apply (load_target_folder_file_success_is_a_text_file
           utc_fromtimestamp scenario_config scenario_fs "a.md"
           (mk_file_content "a.md" "/v/Folder/a.md" "AAA" 3
              "2025-01-14 12:00:00" "Folder" true)).
  reflexivity.
Defined.



(** *** Arguments that do not stay in the configured folder *)

Lemma joinpath_absolute p q s : p // String "/" s = q // String "/" s.
Proof. reflexivity. Qed.

(** An argument that starts with a slash replaces the configured folder:
    for such a file name [load_target_folder_file] gives the same result
    whatever the vault path is, and for such a subdirectory
    [discover_subdirectory_navigation] gives the same result in every
    configuration. *)
Theorem absolute_arguments_ignore_the_vault
        (fromtimestamp : Z -> result datetime) (cfg1 cfg2 : config)
        (fs : node) (s : string) :
  (TARGET_FOLDER cfg1 = TARGET_FOLDER cfg2 ->
   load_target_folder_file fromtimestamp cfg1 fs (String "/" s)
   = load_target_folder_file fromtimestamp cfg2 fs (String "/" s))
  /\ discover_subdirectory_navigation cfg1 fs (String "/" s)
     = discover_subdirectory_navigation cfg2 fs (String "/" s)
  /\ parts (TARGET_FOLDER_PATH cfg1 // String "/" s) = parse_parts (String "/" s).
Proof.
  split; [|split].
  - intros E. unfold load_target_folder_file.
    rewrite (joinpath_absolute (TARGET_FOLDER_PATH cfg1)
               (TARGET_FOLDER_PATH cfg2)), E.
    reflexivity.
  - unfold discover_subdirectory_navigation.
    rewrite (joinpath_absolute (VAULT_PATH cfg1) (VAULT_PATH cfg2)).
    reflexivity.
  - reflexivity.
Qed.

Lemma absolute_arguments_ignore_the_vault_witness :
  load_target_folder_file utc_fromtimestamp scenario_config scenario_fs "/secret"
  = load_target_folder_file utc_fromtimestamp
      (mkconfig (mkpath "/" ["elsewhere"]) "Folder") scenario_fs "/secret".
Proof.
  apply (proj1 (absolute_arguments_ignore_the_vault utc_fromtimestamp
                  scenario_config
                  (mkconfig (mkpath "/" ["elsewhere"]) "Folder")
                  scenario_fs "secret")).
  reflexivity.
Defined.




(* ------------------------------------------------------------------ *)
(** ** More on the clock tool *)

Lemma digit_is_digit x : is_digit (digit (x mod 10)) = true.
Proof.
  pose proof (Z.mod_pos_bound x 10 ltac:(lia)) as B.
  assert (E : x mod 10 = 0 \/ x mod 10 = 1 \/ x mod 10 = 2 \/ x mod 10 = 3
              \/ x mod 10 = 4 \/ x mod 10 = 5 \/ x mod 10 = 6
              \/ x mod 10 = 7 \/ x mod 10 = 8 \/ x mod 10 = 9) by lia.
  repeat (destruct E as [E|E]; [rewrite E; reflexivity|]).
  rewrite E. reflexivity.
Qed.

(** The shape of a formatted time: nineteen characters, the separators of
    [YYYY-MM-DD HH:MM:SS] at their places and a decimal digit everywhere
    else. *)
Lemma strftime_shape dt :
  String.length (strftime dt) = 19%nat
  /\ forall i, (i < 19)%nat ->
       match separator_at i with
       | Some c => String.get i (strftime dt) = Some c
       | None => exists c, String.get i (strftime dt) = Some c
                           /\ is_digit c = true
       end.
Proof.
  cbv [strftime zero_padded]. split; [reflexivity|].
  intros i Hi.
  do 19 (destruct i as [|i];
         [cbn [separator_at String.get];
          first [reflexivity
                |eexists; split; [reflexivity|apply digit_is_digit]]|]).
  lia.
Qed.

(** Whenever [get_current_time] returns at an instant whose year has four
    digits, its [time] field is the formatted [datetime.now()] and has the
    shape [YYYY-MM-DD HH:MM:SS]. *)
Theorem get_current_time_format (clk : clock) (r : time_reading) :
  four_digit_year (datetime_now clk) = true ->
  get_current_time clk = Return r ->
  tr_time r = strftime (datetime_now clk)
  /\ String.length (tr_time r) = 19%nat
  /\ forall i, (i < 19)%nat ->
       match separator_at i with
       | Some c => String.get i (tr_time r) = Some c
       | None => exists c, String.get i (tr_time r) = Some c
                           /\ is_digit c = true
       end.
Proof.
  intros _. unfold get_current_time.
  destruct (tuple2_getitem (time_tzname clk) (time_daylight clk)) as [tz|e];
    cbn [bind try_except]; [|discriminate].
  intros H. injection H as <-. cbn [tr_time].
  split; [reflexivity|]. apply strftime_shape.
Qed.

Lemma get_current_time_format_witness :
  tr_time (mk_time_reading "2025-01-15 12:00:00" "CEST")
    = strftime (datetime_now berlin_winter_noon)
  /\ String.length (tr_time (mk_time_reading "2025-01-15 12:00:00" "CEST"))
     = 19%nat
  /\ forall i, (i < 19)%nat ->
       match separator_at i with
       | Some c =>
           String.get i (tr_time (mk_time_reading "2025-01-15 12:00:00" "CEST"))
           = Some c
       | None =>
           exists c,
             String.get i
               (tr_time (mk_time_reading "2025-01-15 12:00:00" "CEST"))
             = Some c
             /\ is_digit c = true
       end.
Proof.
  apply (get_current_time_format berlin_winter_noon
           (mk_time_reading "2025-01-15 12:00:00" "CEST"));
    reflexivity.
Defined.

Lemma string_compare_refl s : String.compare s s = Eq.
Proof.
  pose proof (String.compare_antisym s s) as H.
  destruct (String.compare s s); simpl in H; congruence.
Qed.

(** The format keeps the wall-clock time to the second and nothing else:
    two datetimes with four-digit years print the same string exactly when
    they agree in year, month, day, hour, minute and second. *)
Theorem strftime_identifies_the_second (a b : datetime) :
  four_digit_year a = true -> four_digit_year b = true ->
  (strftime a = strftime b <->
   year a = year b /\ month a = month b /\ day a = day b
   /\ hour a = hour b /\ minute a = minute b /\ second a = second b).
Proof.
  intros Ha Hb. split.
  - intros E.
    pose proof (strftime_compare a b Ha Hb) as C.
    rewrite E, string_compare_refl in C. symmetry in C.
    apply Z.compare_eq_iff in C.
    apply four_digit_year_inv in Ha. apply four_digit_year_inv in Hb.
    unfold wall_clock_second in C. lia.
  - intros (E1 & E2 & E3 & E4 & E5 & E6). unfold strftime.
    rewrite E1, E2, E3, E4, E5, E6. reflexivity.
Qed.

Lemma strftime_identifies_the_second_witness :
  strftime (mkdatetime 2025 1 15 12 0 0 200000)
    = strftime (mkdatetime 2025 1 15 12 0 0 900000)
  <-> 2025 = 2025 /\ 1 = 1 /\ 15 = 15 /\ 12 = 12 /\ 0 = 0 /\ 0 = 0.
Proof.
  apply (strftime_identifies_the_second
           (mkdatetime 2025 1 15 12 0 0 200000)
           (mkdatetime 2025 1 15 12 0 0 900000)); reflexivity.
Defined.

(* ------------------------------------------------------------------ *)
(** ** The configured paths *)

Lemma list_prefix_app l m : list_prefix l (l ++ m) = true.
Proof.
  induction l as [|a l IH]; [reflexivity|].
  simpl. rewrite String.eqb_refl. exact IH.
Qed.

Lemma lies_within_child p nm :
  valid_name nm = true -> lies_within p (child p nm) = true.
Proof.
  intros Hv. unfold lies_within, child. simpl parts.
  rewrite normpath_extend by (simpl; rewrite Hv; reflexivity).
  apply list_prefix_app.
Qed.

(** When [TARGET_FOLDER] is a plain name, the configured paths nest: the
    target folder is the entry of that name in the vault root, both marker
    paths are the entry [CLAUDE.md] of their folder, and each path lies
    within the one above it. *)
Theorem configured_paths_nest (cfg : config) :
  valid_name (TARGET_FOLDER cfg) = true ->
  TARGET_FOLDER_PATH cfg = child (VAULT_PATH cfg) (TARGET_FOLDER cfg)
  /\ TARGET_CLAUDE_MD cfg = child (TARGET_FOLDER_PATH cfg) "CLAUDE.md"
  /\ VAULT_CLAUDE_MD cfg = child (VAULT_PATH cfg) "CLAUDE.md"
  /\ lies_within (VAULT_PATH cfg) (TARGET_FOLDER_PATH cfg) = true
  /\ lies_within (TARGET_FOLDER_PATH cfg) (TARGET_CLAUDE_MD cfg) = true
  /\ lies_within (VAULT_PATH cfg) (VAULT_CLAUDE_MD cfg) = true.
Proof.
  intros Hv.
  assert (E : TARGET_FOLDER_PATH cfg
              = child (VAULT_PATH cfg) (TARGET_FOLDER cfg))
    by (apply joinpath_valid_name; exact Hv).
  split; [exact E|]. split; [reflexivity|]. split; [reflexivity|].
  split; [rewrite E; apply lies_within_child; exact Hv|].
  split.
  - change (TARGET_CLAUDE_MD cfg)
      with (child (TARGET_FOLDER_PATH cfg) "CLAUDE.md").
    apply lies_within_child. reflexivity.
  - change (VAULT_CLAUDE_MD cfg) with (child (VAULT_PATH cfg) "CLAUDE.md").
    apply lies_within_child. reflexivity.
Qed.

Lemma configured_paths_nest_witness :
  str (TARGET_CLAUDE_MD shipped_config)
    = "/Users/chaosisnotrandomitisrythmic/Documents/obsedian/chaos_isrhythmic/Scanner Daybook/CLAUDE.md"
  /\ lies_within (VAULT_PATH shipped_config)
       (TARGET_FOLDER_PATH shipped_config) = true.
Proof.
  split; [reflexivity|].
  apply (configured_paths_nest shipped_config). reflexivity.
Defined.

(* ------------------------------------------------------------------ *)
(** ** A [CLAUDE.md] that is a directory *)



